(** * Readafull infrastructure: environment resolver, stack declarations,
      entry-point wiring and the destroy script.

    The development follows the layout of [infrastructure/]:
    - [Js]              the fragment of JavaScript evaluation the sources
                        rely on: property reads on plain objects, [||],
                        numbers, numeric enums;
    - [Environment]     [config/environment.ts];
    - [cdk], [aws_dynamodb], [aws_s3], [aws_sns], [aws_cloudwatch],
      [aws_lambda], [aws_logs]
                        the constructs of aws-cdk-lib the stacks declare, as
                        records of the props the sources pass;
    - [StorageStack]    [lib/storage-stack.ts];
    - [MonitoringStack] [lib/monitoring-stack.ts];
    - [Readafull]       [bin/readafull.ts];
    - [DestroyScript]   [scripts/destroy.sh], with the [read] builtin of bash.

    A stack constructor is a program in a state monad over the children of
    the stack; constructs are referred to by their position among the
    children, so that a later method call on a construct ([addAlarmAction],
    [addWidgets], [addDependency]) updates the child in place.  The checks
    the construct library makes on its own (unique ids, token resolution,
    cross-stack references) are outside the model. *)

From Stdlib Require Import ZArith Floats Uint63 Ascii.
From Stdlib Require String.
From stdpp Require Import base strings list gmap pretty.

#[local] Set Warnings "-inexact-float".
#[local] Open Scope Z_scope.

(** ** JavaScript values and operators used by the sources *)

Module Js.

(** The result of reading a property [o[k]] of an object whose own
    properties hold values of type [A].  The read walks the prototype
    chain, so besides an own property it can yield a member inherited from
    [Object.prototype], or [undefined] when no object on the chain has the
    key. *)
Inductive value (A : Type) : Type :=
| undefined : value A
| own (a : A) : value A
| inherited (name : string) : value A.

Arguments undefined {A}.
Arguments own {A} a.
Arguments inherited {A} name.

(** Own property names of [Object.prototype]; every plain object inherits
    each of them (functions, and the [__proto__] accessor). *)
Definition Object_prototype : list string :=
  [ "constructor"; "__defineGetter__"; "__defineSetter__"; "hasOwnProperty";
    "__lookupGetter__"; "__lookupSetter__"; "isPrototypeOf";
    "propertyIsEnumerable"; "toString"; "valueOf"; "__proto__";
    "toLocaleString" ].

(** [o[k]] for a plain object [o]: own properties first, then the
    prototype. *)
Definition get {A} (o : gmap string A) (k : string) : value A :=
  match o !! k with
  | Some a => own a
  | None => if decide (k ∈ Object_prototype) then inherited k else undefined
  end.

(** ToBoolean on the values stored in properties. *)
Class ToBoolean (A : Type) : Type := to_boolean : A → bool.

(** The empty string is the only falsy string, zero the only falsy
    integral number. *)
#[global] Instance string_to_boolean : ToBoolean string :=
  λ s, negb (bool_decide (s = "")).
#[global] Instance Z_to_boolean : ToBoolean Z :=
  λ z, negb (bool_decide (z = 0)).

(** ToBoolean on a property read: [undefined] is falsy, the inherited
    members are functions or objects and so truthy. *)
Definition truthy {A} `{ToBoolean A} (v : value A) : bool :=
  match v with
  | undefined => false
  | own a => to_boolean a
  | inherited _ => true
  end.

(** [a || b] on property reads. *)
Definition or {A} `{ToBoolean A} (a b : value A) : value A :=
  if truthy a then a else b.

(** [s || d] on strings. *)
Definition or_string (s d : string) : string :=
  if to_boolean s then s else d.

(** An entry of the object a TypeScript numeric [enum] compiles to: the
    member's number under its name, and the member's name under the
    numeral of its number (the reverse mapping). *)
Inductive enum_entry : Type :=
| member (n : Z)
| reverse (name : string).

#[global] Instance enum_entry_to_boolean : ToBoolean enum_entry :=
  λ e, match e with
       | member n => to_boolean n
       | reverse name => to_boolean name
       end.

(** A JavaScript number is an IEEE 754 binary64 value.  Configuration
    literals are integers and are kept as [Z]; [number] is the double an
    integer literal denotes when it enters an arithmetic expression. *)
Definition number (z : Z) : float :=
  if (z <? 0)%Z
  then PrimFloat.opp (PrimFloat.of_uint63 (Uint63.of_Z (- z)))
  else PrimFloat.of_uint63 (Uint63.of_Z z).

(** Number-to-string conversion inside a template literal, for integral
    numbers: the decimal numeral. *)
Definition to_string (z : Z) : string := pretty z.

(** The object of a numeric [enum] with the given members. *)
Definition enum (members : list (string * Z)) : gmap string enum_entry :=
  list_to_map
    (((λ m, (m.1, member m.2)) <$> members)
     ++ ((λ m, (to_string m.2, reverse m.1)) <$> members)).

End Js.

(** ** config/environment.ts *)

Module Environment.

(** ['development' | 'staging' | 'production'] *)
Inductive EnvironmentName : Type := Development | Staging | Production.

#[global] Instance EnvironmentName_eq_dec : EqDecision EnvironmentName.
Proof. solve_decision. Defined.

(** The string literal each member of the union stands for. *)
Definition tag (e : EnvironmentName) : string :=
  match e with
  | Development => "development"
  | Staging => "staging"
  | Production => "production"
  end.

Inductive BillingModeName : Type := PAY_PER_REQUEST | PROVISIONED.

Record CognitoConfig : Type := {
  userPoolName : string;
  allowedCallbackURLs : list string;
  allowedLogoutURLs : list string }.

Record DynamodbConfig : Type := {
  tableName : string;
  billingMode : BillingModeName }.

Record S3Config : Type := {
  audioBucketName : string;
  lifecycleDays : Z }.

Record ApiConfig : Type := {
  throttleRateLimit : Z;
  throttleBurstLimit : Z }.

Record LambdaConfig : Type := {
  memorySize : Z;
  timeout : Z;
  runtime : string }.

Record MonitoringConfig : Type := {
  enableXRay : bool;
  logRetentionDays : Z;
  alarmEmail : option string }.

Record EnvironmentConfig : Type := {
  account : option string;
  region : string;
  environment : EnvironmentName;
  appName : string;
  stackPrefix : string;
  cognito : CognitoConfig;
  dynamodb : DynamodbConfig;
  s3 : S3Config;
  api : ApiConfig;
  lambda : LambdaConfig;
  monitoring : MonitoringConfig }.

Definition development : EnvironmentConfig := {|
  account := None;
  region := "us-east-1";
  environment := Development;
  appName := "readafull";
  stackPrefix := "Readafull-Dev";
  cognito := {|
    userPoolName := "readafull-users-dev";
    allowedCallbackURLs := ["http://localhost:3000/auth/callback"];
    allowedLogoutURLs := ["http://localhost:3000/"] |};
  dynamodb := {|
    tableName := "readafull-main-table-dev";
    billingMode := PAY_PER_REQUEST |};
  s3 := {|
    audioBucketName := "readafull-audio-storage-dev";
    lifecycleDays := 30 |};
  api := {| throttleRateLimit := 100; throttleBurstLimit := 200 |};
  lambda := {| memorySize := 512; timeout := 30; runtime := "nodejs18.x" |};
  monitoring := {|
    enableXRay := true;
    logRetentionDays := 7;
    alarmEmail := None |} |}.

Definition staging : EnvironmentConfig := {|
  account := None;
  region := "us-east-1";
  environment := Staging;
  appName := "readafull";
  stackPrefix := "Readafull-Staging";
  cognito := {|
    userPoolName := "readafull-users-staging";
    allowedCallbackURLs := ["https://staging.readafull.com/auth/callback"];
    allowedLogoutURLs := ["https://staging.readafull.com/"] |};
  dynamodb := {|
    tableName := "readafull-main-table-staging";
    billingMode := PAY_PER_REQUEST |};
  s3 := {|
    audioBucketName := "readafull-audio-storage-staging";
    lifecycleDays := 60 |};
  api := {| throttleRateLimit := 500; throttleBurstLimit := 1000 |};
  lambda := {| memorySize := 1024; timeout := 60; runtime := "nodejs18.x" |};
  monitoring := {|
    enableXRay := true;
    logRetentionDays := 14;
    alarmEmail := None |} |}.

Definition production : EnvironmentConfig := {|
  account := None;
  region := "us-east-1";
  environment := Production;
  appName := "readafull";
  stackPrefix := "Readafull-Prod";
  cognito := {|
    userPoolName := "readafull-users-prod";
    allowedCallbackURLs := ["https://readafull.com/auth/callback"];
    allowedLogoutURLs := ["https://readafull.com/"] |};
  dynamodb := {|
    tableName := "readafull-main-table-prod";
    billingMode := PAY_PER_REQUEST |};
  s3 := {|
    audioBucketName := "readafull-audio-storage-prod";
    lifecycleDays := 90 |};
  api := {| throttleRateLimit := 1000; throttleBurstLimit := 2000 |};
  lambda := {| memorySize := 1024; timeout := 60; runtime := "nodejs18.x" |};
  monitoring := {|
    enableXRay := true;
    logRetentionDays := 30;
    alarmEmail := Some "alerts@readafull.com" |} |}.

(** A configuration record is an object, hence truthy. *)
#[global] Instance EnvironmentConfig_to_boolean
  : Js.ToBoolean EnvironmentConfig := λ _, true.

(** The object literal [configs]: three own properties. *)
Definition configs : gmap string EnvironmentConfig :=
  <["development" := development]>
    (<["staging" := staging]>
      (<["production" := production]> ∅)).

(** [getEnvironmentConfig]:
    [const env = environment || 'development';
     return configs[env] || configs.development;] *)
Definition getEnvironmentConfig (environment : string)
  : Js.value EnvironmentConfig :=
  let env := Js.or_string environment "development" in
  Js.or (Js.get configs env) (Js.get configs "development").

End Environment.

(** ** The declarations of aws-cdk-lib the stacks use *)

Module cdk.

Inductive RemovalPolicy : Type :=
| DESTROY | RETAIN | SNAPSHOT | RETAIN_ON_UPDATE_OR_DELETE.

(** [cdk.Duration.minutes(n)], [cdk.Duration.days(n)] *)
Inductive Duration : Type :=
| minutes (n : Z)
| days (n : Z).

(** What a stack output exports: the name or the ARN of a construct of
    the stack (given by the construct's id), or a template literal that
    ends in the name of one. *)
Inductive OutputValue : Type :=
| name_of (construct_id : string)
| arn_of (construct_id : string)
| template (text : string) (construct_id : string).

Record CfnOutput : Type := {
  output_id : string;
  value : OutputValue;
  description : string;
  exportName : string }.

End cdk.

Module aws_dynamodb.

Inductive AttributeType : Type := BINARY | NUMBER | STRING.
Inductive BillingMode : Type := PAY_PER_REQUEST | PROVISIONED.
Inductive TableEncryption : Type := DEFAULT | CUSTOMER_MANAGED | AWS_MANAGED.
Inductive ProjectionType : Type := KEYS_ONLY | INCLUDE | ALL.

Record Attribute : Type := { name : string; type : AttributeType }.

Record GlobalSecondaryIndexProps : Type := {
  indexName : string;
  index_partitionKey : Attribute;
  index_sortKey : Attribute;
  projectionType : ProjectionType }.

Record Table : Type := {
  tableName : string;
  partitionKey : Attribute;
  sortKey : Attribute;
  billingMode : BillingMode;
  encryption : TableEncryption;
  pointInTimeRecovery : bool;
  removalPolicy : cdk.RemovalPolicy;
  globalSecondaryIndexes : list GlobalSecondaryIndexProps }.

(** [table.addGlobalSecondaryIndex(props)] *)
Definition addGlobalSecondaryIndex
    (t : Table) (props : GlobalSecondaryIndexProps) : Table :=
  {| tableName := tableName t;
     partitionKey := partitionKey t;
     sortKey := sortKey t;
     billingMode := billingMode t;
     encryption := encryption t;
     pointInTimeRecovery := pointInTimeRecovery t;
     removalPolicy := removalPolicy t;
     globalSecondaryIndexes := globalSecondaryIndexes t ++ [props] |}.

End aws_dynamodb.

Module aws_s3.

Inductive BucketEncryption : Type := UNENCRYPTED | KMS_MANAGED | S3_MANAGED | KMS.
Inductive BlockPublicAccess : Type := BLOCK_ALL | BLOCK_ACLS.
Inductive StorageClass : Type :=
| INFREQUENT_ACCESS | ONE_ZONE_INFREQUENT_ACCESS | GLACIER
| GLACIER_INSTANT_RETRIEVAL | DEEP_ARCHIVE | INTELLIGENT_TIERING.
Inductive HttpMethods : Type := GET | PUT | HEAD | POST | DELETE.

Record Transition : Type := {
  storageClass : StorageClass;
  transitionAfter : cdk.Duration }.

Record LifecycleRule : Type := {
  id : string;
  enabled : bool;
  expiration : cdk.Duration;
  transitions : list Transition }.

Record CorsRule : Type := {
  allowedMethods : list HttpMethods;
  allowedOrigins : list string;
  allowedHeaders : list string;
  maxAge : Z }.

Record Bucket : Type := {
  bucketName : string;
  encryption : BucketEncryption;
  blockPublicAccess : BlockPublicAccess;
  versioned : bool;
  lifecycleRules : list LifecycleRule;
  cors : list CorsRule;
  removalPolicy : cdk.RemovalPolicy;
  autoDeleteObjects : bool }.

End aws_s3.

(** ** lib/storage-stack.ts *)

Module StorageStack.

Import Environment.

Record t : Type := {
  stack_id : string;
  mainTable : aws_dynamodb.Table;
  audioBucket : aws_s3.Bucket;
  outputs : list cdk.CfnOutput }.

(** [new dynamodb.Table(this, 'MainTable', {...})] *)
Definition MainTable (config : EnvironmentConfig) : aws_dynamodb.Table := {|
  aws_dynamodb.tableName := tableName (dynamodb config);
  aws_dynamodb.partitionKey :=
    {| aws_dynamodb.name := "PK"; aws_dynamodb.type := aws_dynamodb.STRING |};
  aws_dynamodb.sortKey :=
    {| aws_dynamodb.name := "SK"; aws_dynamodb.type := aws_dynamodb.STRING |};
  aws_dynamodb.billingMode :=
    match billingMode (dynamodb config) with
    | PAY_PER_REQUEST => aws_dynamodb.PAY_PER_REQUEST
    | PROVISIONED => aws_dynamodb.PROVISIONED
    end;
  aws_dynamodb.encryption := aws_dynamodb.AWS_MANAGED;
  aws_dynamodb.pointInTimeRecovery :=
    bool_decide (environment config = Production);
  aws_dynamodb.removalPolicy :=
    if bool_decide (environment config = Production)
    then cdk.RETAIN else cdk.DESTROY;
  aws_dynamodb.globalSecondaryIndexes := [] |}.

Definition GSI1 : aws_dynamodb.GlobalSecondaryIndexProps := {|
  aws_dynamodb.indexName := "GSI1";
  aws_dynamodb.index_partitionKey :=
    {| aws_dynamodb.name := "GSI1PK";
       aws_dynamodb.type := aws_dynamodb.STRING |};
  aws_dynamodb.index_sortKey :=
    {| aws_dynamodb.name := "GSI1SK";
       aws_dynamodb.type := aws_dynamodb.STRING |};
  aws_dynamodb.projectionType := aws_dynamodb.ALL |}.

(** [new s3.Bucket(this, 'AudioBucket', {...})] *)
Definition AudioBucket (config : EnvironmentConfig) : aws_s3.Bucket := {|
  aws_s3.bucketName := audioBucketName (s3 config);
  aws_s3.encryption := aws_s3.S3_MANAGED;
  aws_s3.blockPublicAccess := aws_s3.BLOCK_ALL;
  aws_s3.versioned := false;
  aws_s3.lifecycleRules := [
    {| aws_s3.id := "DeleteOldAudioFiles";
       aws_s3.enabled := true;
       aws_s3.expiration := cdk.days (lifecycleDays (s3 config));
       aws_s3.transitions := [
         {| aws_s3.storageClass := aws_s3.INTELLIGENT_TIERING;
            aws_s3.transitionAfter := cdk.days 30 |} ] |} ];
  aws_s3.cors := [
    {| aws_s3.allowedMethods :=
         [aws_s3.GET; aws_s3.PUT; aws_s3.POST; aws_s3.DELETE];
       aws_s3.allowedOrigins := ["*"];
       aws_s3.allowedHeaders := ["*"];
       aws_s3.maxAge := 3000 |} ];
  aws_s3.removalPolicy :=
    if bool_decide (environment config = Production)
    then cdk.RETAIN else cdk.DESTROY;
  aws_s3.autoDeleteObjects :=
    negb (bool_decide (environment config = Production)) |}.

(** The constructor [new StorageStack(scope, id, config, props)]. *)
Definition new (id : string) (config : EnvironmentConfig) : t := {|
  stack_id := id;
  mainTable :=
    aws_dynamodb.addGlobalSecondaryIndex (MainTable config) GSI1;
  audioBucket := AudioBucket config;
  outputs := [
    {| cdk.output_id := "MainTableName";
       cdk.value := cdk.name_of "MainTable";
       cdk.description := "DynamoDB Main Table Name";
       cdk.exportName := stackPrefix config +:+ "-MainTableName" |};
    {| cdk.output_id := "MainTableArn";
       cdk.value := cdk.arn_of "MainTable";
       cdk.description := "DynamoDB Main Table ARN";
       cdk.exportName := stackPrefix config +:+ "-MainTableArn" |};
    {| cdk.output_id := "AudioBucketName";
       cdk.value := cdk.name_of "AudioBucket";
       cdk.description := "S3 Audio Bucket Name";
       cdk.exportName := stackPrefix config +:+ "-AudioBucketName" |};
    {| cdk.output_id := "AudioBucketArn";
       cdk.value := cdk.arn_of "AudioBucket";
       cdk.description := "S3 Audio Bucket ARN";
       cdk.exportName := stackPrefix config +:+ "-AudioBucketArn" |} ] |}.

End StorageStack.

Module aws_sns.

Inductive Subscription : Type := EmailSubscription (emailAddress : string).

Record Topic : Type := {
  topicName : string;
  displayName : string;
  subscriptions : list Subscription }.

(** [topic.addSubscription(subscription)] *)
Definition addSubscription (t : Topic) (sub : Subscription) : Topic :=
  {| topicName := topicName t;
     displayName := displayName t;
     subscriptions := subscriptions t ++ [sub] |}.

End aws_sns.

Module aws_cloudwatch.

Record Metric : Type := {
  namespace : string;
  metricName : string;
  dimensionsMap : list (string * string);
  statistic : string;
  period : cdk.Duration }.

Inductive ComparisonOperator : Type :=
| GREATER_THAN_OR_EQUAL_TO_THRESHOLD
| GREATER_THAN_THRESHOLD
| LESS_THAN_THRESHOLD
| LESS_THAN_OR_EQUAL_TO_THRESHOLD.

Inductive TreatMissingData : Type :=
| BREACHING | NOT_BREACHING | IGNORE | MISSING.

(** [new cloudwatch_actions.SnsAction(topic)]; the topic is given by its
    position among the children of the stack. *)
Inductive AlarmAction : Type := SnsAction (topic : nat).

Record Alarm : Type := {
  alarmName : string;
  metric : Metric;
  threshold : float;
  evaluationPeriods : Z;
  comparisonOperator : ComparisonOperator;
  treatMissingData : TreatMissingData;
  alarmActions : list AlarmAction }.

(** [alarm.addAlarmAction(action)] *)
Definition addAlarmAction (a : Alarm) (action : AlarmAction) : Alarm :=
  {| alarmName := alarmName a;
     metric := metric a;
     threshold := threshold a;
     evaluationPeriods := evaluationPeriods a;
     comparisonOperator := comparisonOperator a;
     treatMissingData := treatMissingData a;
     alarmActions := alarmActions a ++ [action] |}.

Record GraphWidget : Type := {
  title : string;
  left : list Metric;
  right : list Metric;
  width : Z;
  height : Z }.

Record Dashboard : Type := {
  dashboardName : string;
  widgets : list (list GraphWidget) }.

(** [dashboard.addWidgets(...row)] adds one row of widgets. *)
Definition addWidgets (d : Dashboard) (row : list GraphWidget) : Dashboard :=
  {| dashboardName := dashboardName d;
     widgets := widgets d ++ [row] |}.

End aws_cloudwatch.

Module aws_lambda.

(** A function as the Monitoring Stack sees it: the id of its construct
    node and its function name. *)
Record Function : Type := {
  node_id : string;
  functionName : string }.

(** [fn.metric(metricName, props)]: a metric of the AWS/Lambda namespace
    with the function's name as its only dimension. *)
Definition metric (fn : Function) (metricName statistic : string)
    (period : cdk.Duration) : aws_cloudwatch.Metric := {|
  aws_cloudwatch.namespace := "AWS/Lambda";
  aws_cloudwatch.metricName := metricName;
  aws_cloudwatch.dimensionsMap := [("FunctionName", functionName fn)];
  aws_cloudwatch.statistic := statistic;
  aws_cloudwatch.period := period |}.

Definition metricErrors (fn : Function) := metric fn "Errors".
Definition metricThrottles (fn : Function) := metric fn "Throttles".
Definition metricDuration (fn : Function) := metric fn "Duration".
Definition metricInvocations (fn : Function) := metric fn "Invocations".

End aws_lambda.

Module aws_logs.

(** The members of the numeric enum [logs.RetentionDays]. *)
Definition RetentionDays_members : list (string * Z) :=
  [ ("ONE_DAY", 1); ("THREE_DAYS", 3); ("FIVE_DAYS", 5); ("ONE_WEEK", 7);
    ("TWO_WEEKS", 14); ("ONE_MONTH", 30); ("TWO_MONTHS", 60);
    ("THREE_MONTHS", 90); ("FOUR_MONTHS", 120); ("FIVE_MONTHS", 150);
    ("SIX_MONTHS", 180); ("ONE_YEAR", 365); ("THIRTEEN_MONTHS", 400);
    ("EIGHTEEN_MONTHS", 545); ("TWO_YEARS", 731); ("THREE_YEARS", 1096);
    ("FIVE_YEARS", 1827); ("SIX_YEARS", 2192); ("SEVEN_YEARS", 2557);
    ("EIGHT_YEARS", 2922); ("NINE_YEARS", 3288); ("TEN_YEARS", 3653);
    ("INFINITE", 9999) ].

(** The object [logs.RetentionDays]. *)
Definition RetentionDays : gmap string Js.enum_entry :=
  Js.enum RetentionDays_members.

Record LogGroup : Type := {
  logGroupName : string;
  retention : Js.value Js.enum_entry;
  removalPolicy : cdk.RemovalPolicy }.

End aws_logs.

(** ** lib/monitoring-stack.ts *)

Module MonitoringStack.

Import Environment.

(** The constructs the stack declares. *)
Inductive Construct : Type :=
| Topic (t : aws_sns.Topic)
| Dashboard (d : aws_cloudwatch.Dashboard)
| LogGroup (l : aws_logs.LogGroup)
| Alarm (a : aws_cloudwatch.Alarm)
| CfnOutput (o : cdk.CfnOutput).

(** What the constructor mutates while it runs: the children of the stack
    (construct id and construct, in creation order) and the local array
    [lambdaWidgets]. *)
Record State : Type := {
  children : list (string * Construct);
  lambdaWidgets : list aws_cloudwatch.GraphWidget }.

Definition Synth (A : Type) : Type := State → A * State.

#[global] Instance Synth_ret : MRet Synth := λ A a st, (a, st).
#[global] Instance Synth_bind : MBind Synth :=
  λ A B f m st, let (a, st') := m st in f a st'.

(** [new C(this, id, props)]: the construct becomes the last child of the
    stack; the object is referred to by its position. *)
Definition new (id : string) (c : Construct) : Synth nat :=
  λ st, (length (children st),
         {| children := children st ++ [(id, c)];
            lambdaWidgets := lambdaWidgets st |}).

(** A method call that mutates the construct at position [h]. *)
Definition update (h : nat) (f : Construct → Construct) : Synth unit :=
  λ st, (tt,
         {| children := alter (prod_map Datatypes.id f) h (children st);
            lambdaWidgets := lambdaWidgets st |}).

Definition addSubscription (h : nat) (sub : aws_sns.Subscription)
  : Synth unit :=
  update h (λ c, match c with
                 | Topic t => Topic (aws_sns.addSubscription t sub)
                 | _ => c
                 end).

Definition addAlarmAction (h : nat) (action : aws_cloudwatch.AlarmAction)
  : Synth unit :=
  update h (λ c, match c with
                 | Alarm a => Alarm (aws_cloudwatch.addAlarmAction a action)
                 | _ => c
                 end).

Definition addWidgets (h : nat) (row : list aws_cloudwatch.GraphWidget)
  : Synth unit :=
  update h (λ c, match c with
                 | Dashboard d => Dashboard (aws_cloudwatch.addWidgets d row)
                 | _ => c
                 end).

(** [lambdaWidgets.push(widget)] *)
Definition push (widget : aws_cloudwatch.GraphWidget) : Synth unit :=
  λ st, (tt,
         {| children := children st;
            lambdaWidgets := lambdaWidgets st ++ [widget] |}).

(** [array.forEach(callback)] *)
Fixpoint forEach {A} (array : list A) (callback : A → Synth unit)
  : Synth unit :=
  match array with
  | [] => mret tt
  | x :: rest => callback x ;; forEach rest callback
  end.

(** The retention of a log group:
    [logs.RetentionDays[`DAYS_${days}`] || logs.RetentionDays.ONE_WEEK] *)
Definition retention_for (days : Z) : Js.value Js.enum_entry :=
  Js.or (Js.get aws_logs.RetentionDays ("DAYS_" +:+ Js.to_string days))
        (Js.get aws_logs.RetentionDays "ONE_WEEK").

(** The callback of the first [forEach]: the log group of a function. *)
Definition LogGroup_props (config : EnvironmentConfig)
    (fn : aws_lambda.Function) : aws_logs.LogGroup := {|
  aws_logs.logGroupName := "/aws/lambda/" +:+ aws_lambda.functionName fn;
  aws_logs.retention := retention_for (logRetentionDays (monitoring config));
  aws_logs.removalPolicy := cdk.DESTROY |}.

Definition declare_log_group (config : EnvironmentConfig)
    (fn : aws_lambda.Function) : Synth unit :=
  _ ← new (aws_lambda.node_id fn +:+ "LogGroup")
          (LogGroup (LogGroup_props config fn));
  mret tt.

(** The metrics and the props of the three alarms of a function. *)
Definition errorMetric (fn : aws_lambda.Function) : aws_cloudwatch.Metric :=
  aws_lambda.metricErrors fn "Sum" (cdk.minutes 5).

Definition throttleMetric (fn : aws_lambda.Function) : aws_cloudwatch.Metric :=
  aws_lambda.metricThrottles fn "Sum" (cdk.minutes 5).

Definition durationMetric (fn : aws_lambda.Function) : aws_cloudwatch.Metric :=
  aws_lambda.metricDuration fn "Average" (cdk.minutes 5).

Definition errorAlarm_props (config : EnvironmentConfig)
    (fn : aws_lambda.Function) : aws_cloudwatch.Alarm := {|
  aws_cloudwatch.alarmName :=
    stackPrefix config +:+ "-" +:+ aws_lambda.functionName fn +:+ "-errors";
  aws_cloudwatch.metric := errorMetric fn;
  aws_cloudwatch.threshold := 10%float;
  aws_cloudwatch.evaluationPeriods := 2;
  aws_cloudwatch.comparisonOperator := aws_cloudwatch.GREATER_THAN_THRESHOLD;
  aws_cloudwatch.treatMissingData := aws_cloudwatch.NOT_BREACHING;
  aws_cloudwatch.alarmActions := [] |}.

Definition throttleAlarm_props (config : EnvironmentConfig)
    (fn : aws_lambda.Function) : aws_cloudwatch.Alarm := {|
  aws_cloudwatch.alarmName :=
    stackPrefix config +:+ "-" +:+ aws_lambda.functionName fn +:+ "-throttles";
  aws_cloudwatch.metric := throttleMetric fn;
  aws_cloudwatch.threshold := 5%float;
  aws_cloudwatch.evaluationPeriods := 2;
  aws_cloudwatch.comparisonOperator := aws_cloudwatch.GREATER_THAN_THRESHOLD;
  aws_cloudwatch.treatMissingData := aws_cloudwatch.NOT_BREACHING;
  aws_cloudwatch.alarmActions := [] |}.

(** The threshold is [config.lambda.timeout * 1000 * 0.8], in double
    arithmetic. *)
Definition durationAlarm_props (config : EnvironmentConfig)
    (fn : aws_lambda.Function) : aws_cloudwatch.Alarm := {|
  aws_cloudwatch.alarmName :=
    stackPrefix config +:+ "-" +:+ aws_lambda.functionName fn +:+ "-duration";
  aws_cloudwatch.metric := durationMetric fn;
  aws_cloudwatch.threshold :=
    (Js.number (timeout (lambda config)) * 1000 * 0.8)%float;
  aws_cloudwatch.evaluationPeriods := 2;
  aws_cloudwatch.comparisonOperator := aws_cloudwatch.GREATER_THAN_THRESHOLD;
  aws_cloudwatch.treatMissingData := aws_cloudwatch.NOT_BREACHING;
  aws_cloudwatch.alarmActions := [] |}.

Definition widget (fn : aws_lambda.Function) : aws_cloudwatch.GraphWidget := {|
  aws_cloudwatch.title := aws_lambda.functionName fn;
  aws_cloudwatch.left :=
    [ aws_lambda.metricInvocations fn "Sum" (cdk.minutes 5);
      errorMetric fn; throttleMetric fn ];
  aws_cloudwatch.right := [durationMetric fn];
  aws_cloudwatch.width := 12;
  aws_cloudwatch.height := 6 |}.

(** The callback of the second [forEach]: the three alarms of a function,
    each with the alarm topic as its action, and its dashboard widget. *)
Definition declare_alarms (config : EnvironmentConfig) (alarmTopic : nat)
    (fn : aws_lambda.Function) : Synth unit :=
  errorAlarm ← new (aws_lambda.node_id fn +:+ "ErrorAlarm")
                   (Alarm (errorAlarm_props config fn));
  addAlarmAction errorAlarm (aws_cloudwatch.SnsAction alarmTopic) ;;
  throttleAlarm ← new (aws_lambda.node_id fn +:+ "ThrottleAlarm")
                      (Alarm (throttleAlarm_props config fn));
  addAlarmAction throttleAlarm (aws_cloudwatch.SnsAction alarmTopic) ;;
  durationAlarm ← new (aws_lambda.node_id fn +:+ "DurationAlarm")
                      (Alarm (durationAlarm_props config fn));
  addAlarmAction durationAlarm (aws_cloudwatch.SnsAction alarmTopic) ;;
  push (widget fn).

(** [for (let i = 0; i < lambdaWidgets.length; i += 2)
       this.dashboard.addWidgets(...lambdaWidgets.slice(i, i + 2))];
    [steps] bounds the number of iterations and is taken to be the length
    of the array, which the loop never exhausts. *)
Fixpoint add_rows (steps i : nat) (dashboard : nat)
    (lambdaWidgets : list aws_cloudwatch.GraphWidget) : Synth unit :=
  match steps with
  | O => mret tt
  | S steps' =>
      if decide (i < length lambdaWidgets)%nat
      then addWidgets dashboard (take 2 (drop i lambdaWidgets)) ;;
           add_rows steps' (i + 2)%nat dashboard lambdaWidgets
      else mret tt
  end.

Definition api_metric (config : EnvironmentConfig)
    (metricName statistic : string) : aws_cloudwatch.Metric := {|
  aws_cloudwatch.namespace := "AWS/ApiGateway";
  aws_cloudwatch.metricName := metricName;
  aws_cloudwatch.dimensionsMap :=
    [("ApiName", appName config +:+ "-api-" +:+ tag (environment config))];
  aws_cloudwatch.statistic := statistic;
  aws_cloudwatch.period := cdk.minutes 5 |}.

Definition apiMetricsWidget (config : EnvironmentConfig)
  : aws_cloudwatch.GraphWidget := {|
  aws_cloudwatch.title := "API Gateway Metrics";
  aws_cloudwatch.left :=
    [ api_metric config "Count" "Sum";
      api_metric config "4XXError" "Sum";
      api_metric config "5XXError" "Sum" ];
  aws_cloudwatch.right := [api_metric config "Latency" "Average"];
  aws_cloudwatch.width := 24;
  aws_cloudwatch.height := 6 |}.

(** [if (config.monitoring.alarmEmail) this.alarmTopic.addSubscription(...)];
    an absent and an empty address are both falsy. *)
Definition subscribe_alarm_email (config : EnvironmentConfig)
    (alarmTopic : nat) : Synth unit :=
  match alarmEmail (monitoring config) with
  | Some email =>
      if Js.to_boolean email
      then addSubscription alarmTopic (aws_sns.EmailSubscription email)
      else mret tt
  | None => mret tt
  end.

(** The body of the constructor; it yields the positions of
    [this.alarmTopic] and [this.dashboard]. *)
Definition constructor (config : EnvironmentConfig)
    (lambdaFunctions : list aws_lambda.Function) : Synth (nat * nat) :=
  alarmTopic ← new "AlarmTopic" (Topic {|
      aws_sns.topicName := stackPrefix config +:+ "-alarms";
      aws_sns.displayName :=
        "Readafull " +:+ tag (environment config) +:+ " Alarms";
      aws_sns.subscriptions := [] |});
  subscribe_alarm_email config alarmTopic ;;
  dashboard ← new "Dashboard" (Dashboard {|
      aws_cloudwatch.dashboardName := stackPrefix config +:+ "-dashboard";
      aws_cloudwatch.widgets := [] |});
  forEach lambdaFunctions (declare_log_group config) ;;
  forEach lambdaFunctions (declare_alarms config alarmTopic) ;;
  widgets ← (λ st, (lambdaWidgets st, st));
  add_rows (length widgets) 0 dashboard widgets ;;
  addWidgets dashboard [apiMetricsWidget config] ;;
  _ ← new "AlarmTopicArn" (CfnOutput {|
      cdk.output_id := "AlarmTopicArn";
      cdk.value := cdk.arn_of "AlarmTopic";
      cdk.description := "SNS Topic ARN for Alarms";
      cdk.exportName := stackPrefix config +:+ "-AlarmTopicArn" |});
  _ ← new "DashboardUrl" (CfnOutput {|
      cdk.output_id := "DashboardUrl";
      cdk.value :=
        cdk.template
          ("https://console.aws.amazon.com/cloudwatch/home?region="
             +:+ region config +:+ "#dashboards:name=")
          "Dashboard";
      cdk.description := "CloudWatch Dashboard URL";
      cdk.exportName := stackPrefix config +:+ "-DashboardUrl" |});
  mret (alarmTopic, dashboard).

Record t : Type := {
  stack_id : string;
  alarmTopic : nat;
  dashboard : nat;
  node_children : list (string * Construct) }.

(** [new MonitoringStack(scope, id, config, { lambdaFunctions }, props)] *)
Definition make (id : string) (config : EnvironmentConfig)
    (lambdaFunctions : list aws_lambda.Function) : t :=
  let (handles, st) :=
    constructor config lambdaFunctions
      {| children := []; lambdaWidgets := [] |} in
  {| stack_id := id;
     alarmTopic := handles.1;
     dashboard := handles.2;
     node_children := children st |}.

(** The children the two callbacks add for a function. *)
Definition log_group_child (config : EnvironmentConfig)
    (fn : aws_lambda.Function) : string * Construct :=
  (aws_lambda.node_id fn +:+ "LogGroup", LogGroup (LogGroup_props config fn)).

Definition routed (topic : nat) (a : aws_cloudwatch.Alarm)
  : aws_cloudwatch.Alarm :=
  aws_cloudwatch.addAlarmAction a (aws_cloudwatch.SnsAction topic).

Definition alarm_children (config : EnvironmentConfig) (topic : nat)
    (fn : aws_lambda.Function) : list (string * Construct) :=
  [ (aws_lambda.node_id fn +:+ "ErrorAlarm",
     Alarm (routed topic (errorAlarm_props config fn)));
    (aws_lambda.node_id fn +:+ "ThrottleAlarm",
     Alarm (routed topic (throttleAlarm_props config fn)));
    (aws_lambda.node_id fn +:+ "DurationAlarm",
     Alarm (routed topic (durationAlarm_props config fn))) ].

(** The alarms and the log groups among the children of a stack, in
    creation order. *)
Definition alarm_of (child : string * Construct)
  : option aws_cloudwatch.Alarm :=
  match child.2 with Alarm a => Some a | _ => None end.

Definition log_group_of (child : string * Construct)
  : option aws_logs.LogGroup :=
  match child.2 with LogGroup l => Some l | _ => None end.

Definition alarms (stack : t) : list aws_cloudwatch.Alarm :=
  omap alarm_of (node_children stack).

Definition log_groups (stack : t) : list aws_logs.LogGroup :=
  omap log_group_of (node_children stack).

End MonitoringStack.

(** ** bin/readafull.ts *)

Module ApiStack.

(** [lib/api-stack.ts] is not part of this development.  The entry point
    only reads the five function properties of the stack object, so the
    stack object is a parameter of the entry point. *)
Record t : Type := {
  textGenerationFunction : aws_lambda.Function;
  translationFunction : aws_lambda.Function;
  ttsGenerationFunction : aws_lambda.Function;
  audioProcessingFunction : aws_lambda.Function;
  userProfileFunction : aws_lambda.Function }.

(** A stack object to evaluate the entry point on; ids and names are
    sample values. *)
Definition example : t := {|
  textGenerationFunction :=
    {| aws_lambda.node_id := "TextGenerationFunction";
       aws_lambda.functionName := "readafull-text-generation" |};
  translationFunction :=
    {| aws_lambda.node_id := "TranslationFunction";
       aws_lambda.functionName := "readafull-translation" |};
  ttsGenerationFunction :=
    {| aws_lambda.node_id := "TtsGenerationFunction";
       aws_lambda.functionName := "readafull-tts-generation" |};
  audioProcessingFunction :=
    {| aws_lambda.node_id := "AudioProcessingFunction";
       aws_lambda.functionName := "readafull-audio-processing" |};
  userProfileFunction :=
    {| aws_lambda.node_id := "UserProfileFunction";
       aws_lambda.functionName := "readafull-user-profile" |} |}.

End ApiStack.

Module Readafull.

Import Environment.

(** What each of the four stacks of the app declares.  Of the Auth Stack
    only the name of its user pool is kept. *)
Inductive StackBody : Type :=
| AuthStack (userPoolName : string)
| StorageStack (s : StorageStack.t)
| ApiStack (a : ApiStack.t)
| MonitoringStack (m : MonitoringStack.t).

(** A stack of the app: its id and the stacks it was made to depend on,
    given by their positions among the children of the app. *)
Record Stack : Type := {
  id : string;
  body : StackBody;
  dependencies : gset nat }.

(** The children of the [cdk.App], in creation order. *)
Definition App : Type := list Stack.

Definition Main (A : Type) : Type := App → A * App.

#[global] Instance Main_ret : MRet Main := λ A a app, (a, app).
#[global] Instance Main_bind : MBind Main :=
  λ A B f m app, let (a, app') := m app in f a app'.

(** [new XStack(app, id, ...)] *)
Definition new (id : string) (body : StackBody) : Main nat :=
  λ app, (length app,
          app ++ [{| id := id; body := body; dependencies := ∅ |}]).

(** [stack.addDependency(target)] *)
Definition addDependency (stack target : nat) : Main unit :=
  λ app, (tt,
          alter (λ s, {| id := id s; body := body s;
                         dependencies := {[target]} ∪ dependencies s |})
                stack app).

(** The statements of the entry point after [config] is resolved. *)
Definition synth (api : ApiStack.t) (config : EnvironmentConfig)
  : Main unit :=
  authStack ← new (stackPrefix config +:+ "-Auth")
                  (AuthStack (userPoolName (cognito config)));
  storageStack ← new (stackPrefix config +:+ "-Storage")
                     (StorageStack
                        (StorageStack.new (stackPrefix config +:+ "-Storage")
                                          config));
  apiStack ← new (stackPrefix config +:+ "-Api") (ApiStack api);
  addDependency apiStack authStack ;;
  addDependency apiStack storageStack ;;
  monitoringStack ← new (stackPrefix config +:+ "-Monitoring")
      (MonitoringStack
         (MonitoringStack.make (stackPrefix config +:+ "-Monitoring") config
            [ ApiStack.textGenerationFunction api;
              ApiStack.translationFunction api;
              ApiStack.ttsGenerationFunction api;
              ApiStack.audioProcessingFunction api;
              ApiStack.userProfileFunction api ]));
  addDependency monitoringStack apiStack.

(** The entry point.  [context] is what
    [app.node.tryGetContext('environment')] yields ([None] for
    [undefined]).  When the resolver hands back an inherited member
    instead of a configuration record, reading [config.cognito.userPoolName]
    in the Auth Stack throws a TypeError and nothing is synthesized. *)
Definition main (api : ApiStack.t) (context : option string) : option App :=
  let environment :=
    match context with
    | Some s => Js.or_string s "development"
    | None => "development"
    end in
  match getEnvironmentConfig environment with
  | Js.own config => Some (synth api config []).2
  | Js.inherited _ | Js.undefined => None
  end.

(** The dependency relation of an app and what it means to be acyclic. *)
Definition depends_on (app : App) (i j : nat) : Prop :=
  ∃ s, app !! i = Some s ∧ j ∈ dependencies s.

Definition acyclic (app : App) : Prop :=
  ∀ i, ¬ tc (depends_on app) i i.

End Readafull.

(** ** scripts/destroy.sh *)

Module DestroyScript.

#[local] Open Scope char_scope.

Definition newline : ascii := "010".
Definition tab : ascii := "009".
Definition backslash : ascii := "\".
Definition NUL : ascii := "000".
(** The two bytes bash uses internally to mark quoted characters. *)
Definition CTLESC : ascii := "001".
Definition CTLNUL : ascii := "127".

(** Membership in the default [IFS] (space, tab, newline), all of which
    are IFS white space. *)
Definition ifs (c : ascii) : bool :=
  bool_decide (c = " ") || bool_decide (c = tab) || bool_decide (c = newline).

(** *** The [read] builtin, without [-r], with one variable name

    The builtin is modelled as it works where every character is one
    byte: in the C (POSIX) locale on any input, and in any locale on a
    line of ASCII bytes.  In a multibyte locale bash takes a byte from
    0x80 on as the start of a character and reads the bytes after it into
    that character, so that a newline or a backslash that follows an
    incomplete character neither ends nor continues the line; such lines
    are outside this model, and the properties that speak of what is
    typed are stated for ASCII lines ([plain] below).

    The reading loop: bytes are collected up to the first newline that no
    backslash precedes.  A backslash puts [CTLESC] in front of the next
    byte; backslash-newline continues the line; NUL bytes are skipped;
    [CTLESC] and [CTLNUL] bytes of the input are marked with [CTLESC]
    too.  [None] when the input ends before the line does: [read] then
    returns a non-zero status. *)
Fixpoint read_loop (input : string) (pass_next : bool)
    (input_string : list ascii) : option (list ascii) :=
  match input with
  | EmptyString => None
  | String c rest =>
      if pass_next then
        if bool_decide (c = newline)
        then read_loop rest false (removelast input_string)
        else read_loop rest false (input_string ++ [c])
      else if bool_decide (c = backslash)
        then read_loop rest true (input_string ++ [CTLESC])
      else if bool_decide (c = newline) then Some input_string
      else if bool_decide (c = NUL) then read_loop rest false input_string
      else if bool_decide (c = CTLESC) || bool_decide (c = CTLNUL)
        then read_loop rest false (input_string ++ [CTLESC; c])
      else read_loop rest false (input_string ++ [c])
  end.

(** The collected bytes as a C string: it ends at the first NUL (which
    only a backslash can have put there). *)
Fixpoint c_string (bytes : list ascii) : list ascii :=
  match bytes with
  | [] => []
  | c :: rest => if bool_decide (c = NUL) then [] else c :: c_string rest
  end.

Fixpoint skip_ifs_whitespace (s : list ascii) : list ascii :=
  match s with
  | [] => []
  | c :: rest => if ifs c then skip_ifs_whitespace rest else s
  end.

(** The first field of [s] and what follows it: a field ends at the first
    separator that [CTLESC] does not protect. *)
Fixpoint string_extract_verbatim (s : list ascii)
  : list ascii * list ascii :=
  match s with
  | [] => ([], [])
  | c :: rest =>
      if bool_decide (c = CTLESC) then
        match rest with
        | [] => ([c], [])
        | c' :: rest' =>
            let (word, after) := string_extract_verbatim rest' in
            (c :: c' :: word, after)
        end
      else if ifs c then ([], s)
      else
        let (word, after) := string_extract_verbatim rest in
        (c :: word, after)
  end.

(** The first field, and the input after the separators that end it. *)
Definition get_word_from_string (s : list ascii) : list ascii * list ascii :=
  let (word, after) := string_extract_verbatim s in
  (word, skip_ifs_whitespace (tail after)).

(** [strip_trailing_ifs_whitespace], scanning from the last byte towards
    the first, which it never removes.  [reversed] is the part of the
    string not yet passed, last byte first; [next] is the byte passed
    last. *)
Fixpoint strip_trailing (reversed : list ascii) (next : option ascii)
  : list ascii :=
  match reversed with
  | [] => []
  | [c] => [c]
  | c :: before =>
      if ifs c
         || (bool_decide (c = CTLESC)
             && match next with Some n => ifs n | None => false end)
      then strip_trailing before (Some c)
      else reversed
  end.

Definition strip_trailing_ifs_whitespace (s : list ascii) : list ascii :=
  reverse (strip_trailing (reverse s) None).

(** [dequote_string]: every [CTLESC] is dropped and the byte after it
    kept; a string that is a single [CTLESC] passes unchanged. *)
Fixpoint dequote (s : list ascii) : list ascii :=
  match s with
  | [] => []
  | c :: rest =>
      if bool_decide (c = CTLESC) then
        match rest with
        | [] => []
        | c' :: rest' => c' :: dequote rest'
        end
      else c :: dequote rest
  end.

Definition dequote_string (s : list ascii) : list ascii :=
  if bool_decide (s = [CTLESC]) then s else dequote s.

(** [read NAME] on standard input [stdin]: the value assigned to [NAME],
    or [None] when [read] fails. *)
Definition read (stdin : string) : option string :=
  match read_loop stdin false [] with
  | None => None
  | Some bytes =>
      let input_string := skip_ifs_whitespace (c_string bytes) in
      let value :=
        match input_string with
        | [] => []
        | _ :: _ =>
            let (word, rest) := get_word_from_string input_string in
            match rest with
            | [] => word
            | _ :: _ => strip_trailing_ifs_whitespace input_string
            end
        end in
      Some (String.string_of_list_ascii (dequote_string value))
  end.

(** Characters that [read] hands on unchanged wherever they stand in the
    line, whatever the locale: the ASCII characters (bytes below 0x80)
    other than the backslash, the blanks and newline, and the bytes NUL,
    [CTLESC] and [CTLNUL]. *)
Definition plain (c : ascii) : Prop :=
  (c ∉ [backslash; newline; " "; tab; NUL; CTLESC; CTLNUL])
  ∧ (nat_of_ascii c < 128)%nat.

#[local] Close Scope char_scope.

(** The end of a typed line. *)
Definition end_of_line : string := String newline EmptyString.

(** *** The script *)

(** What the script does, in order: lines written with [echo], the prompt
    of [read -p] (shown when standard input is a terminal), and commands
    it starts, given by their command line after parameter expansion. *)
Inductive Event : Type :=
| echo (line : string)
| prompt (text : string)
| run (command_line : string).

Record Result : Type := {
  events : list Event;
  exit_status : Z }.

(** [ENVIRONMENT=${1:-development}]: the first argument unless it is
    unset or empty. *)
Definition ENVIRONMENT (args : list string) : string :=
  match args with
  | arg1 :: _ => if bool_decide (arg1 = "") then "development" else arg1
  | [] => "development"
  end.

Definition rule : string := "========================================".

(** The banner, the warning and the confirmation prompt. *)
Definition preamble (ENVIRONMENT : string) : list Event :=
  [ echo rule;
    echo "Destroying Readafull Infrastructure";
    echo ("Environment: " +:+ ENVIRONMENT);
    echo rule;
    echo "";
    echo ("WARNING: This will destroy all resources in the "
            +:+ ENVIRONMENT +:+ " environment!");
    echo "This action cannot be undone.";
    echo "";
    prompt ("Are you absolutely sure you want to continue? Type 'destroy-"
              +:+ ENVIRONMENT +:+ "' to confirm: ") ].

Definition destroy_command (ENVIRONMENT : string) : string :=
  "npm run cdk:destroy -- --all --context environment="
    +:+ ENVIRONMENT +:+ " --force".

(** The script under [set -e], run with positional parameters [args] and
    standard input [stdin]; [npm_status] is the exit status of the
    [npm run] command should the script start it. *)
Definition destroy_sh (args : list string) (stdin : string) (npm_status : Z)
  : Result :=
  let ENVIRONMENT := ENVIRONMENT args in
  match read stdin with
  | None =>
      (* [read] fails and [set -e] ends the script *)
      {| events := preamble ENVIRONMENT; exit_status := 1 |}
  | Some CONFIRM =>
      if bool_decide (CONFIRM ≠ "destroy-" +:+ ENVIRONMENT) then
        {| events := preamble ENVIRONMENT ++ [echo "Destruction cancelled."];
           exit_status := 0 |}
      else if bool_decide (npm_status = 0) then
        {| events :=
             preamble ENVIRONMENT
             ++ [ echo ""; echo "Destroying all stacks...";
                  run (destroy_command ENVIRONMENT);
                  echo ""; echo rule; echo "Destruction completed!";
                  echo rule ];
           exit_status := 0 |}
      else
        (* the command fails and [set -e] ends the script *)
        {| events :=
             preamble ENVIRONMENT
             ++ [ echo ""; echo "Destroying all stacks...";
                  run (destroy_command ENVIRONMENT) ];
           exit_status := npm_status |}
  end.

(** The commands a run of the script started. *)
Definition commands (r : Result) : list string :=
  omap (λ e, match e with run c => Some c | _ => None end) (events r).

End DestroyScript.

(** ** lib/auth-stack.ts *)

Module aws_cognito.

Record StandardAttribute : Type := { required : bool; mutable : bool }.

(** [new cognito.StringAttribute({ mutable })] *)
Record StringAttribute : Type := { string_mutable : bool }.

Record SignInAliases : Type := { alias_email : bool; alias_username : bool }.

Record PasswordPolicy : Type := {
  minLength : Z;
  requireLowercase : bool;
  requireUppercase : bool;
  requireDigits : bool;
  requireSymbols : bool }.

Inductive AccountRecovery : Type :=
| EMAIL_AND_PHONE_WITHOUT_MFA | PHONE_WITHOUT_MFA_AND_EMAIL | EMAIL_ONLY
| PHONE_ONLY_WITHOUT_MFA | PHONE_AND_EMAIL | NONE.

(** The object literals [standardAttributes] and [customAttributes] are
    kept as their properties in source order. *)
Record UserPool : Type := {
  userPoolName : string;
  selfSignUpEnabled : bool;
  signInAliases : SignInAliases;
  autoVerify_email : bool;
  standardAttributes : list (string * StandardAttribute);
  customAttributes : list (string * StringAttribute);
  passwordPolicy : PasswordPolicy;
  accountRecovery : AccountRecovery;
  removalPolicy : cdk.RemovalPolicy }.

Inductive OAuthScope : Type := PHONE | EMAIL | OPENID | PROFILE | COGNITO_ADMIN.

Inductive UserPoolClientIdentityProvider : Type :=
| APPLE | FACEBOOK | GOOGLE | AMAZON | COGNITO.

Record AuthFlow : Type := {
  userPassword : bool;
  userSrp : bool;
  custom : bool }.

Record OAuthFlows : Type := {
  authorizationCodeGrant : bool;
  implicitCodeGrant : bool }.

Record OAuthSettings : Type := {
  flows : OAuthFlows;
  scopes : list OAuthScope;
  callbackUrls : list string;
  logoutUrls : list string }.

(** The client refers to its pool by the id of the pool's construct. *)
Record UserPoolClient : Type := {
  userPool : string;
  userPoolClientName : string;
  generateSecret : bool;
  authFlows : AuthFlow;
  oAuth : OAuthSettings;
  supportedIdentityProviders : list UserPoolClientIdentityProvider }.

End aws_cognito.

Module AuthStack.

Import Environment.

(** What an output of the stack exports: the id or the ARN of the user
    pool, or the id of the client. *)
Inductive OutputValue : Type := userPoolId | userPoolArn | userPoolClientId.

Record CfnOutput : Type := {
  output_id : string;
  value : OutputValue;
  description : string;
  exportName : string }.

Record t : Type := {
  stack_id : string;
  userPool : aws_cognito.UserPool;
  userPoolClient : aws_cognito.UserPoolClient;
  outputs : list CfnOutput }.

(** [new cognito.UserPool(this, 'UserPool', {...})] *)
Definition UserPool (config : EnvironmentConfig) : aws_cognito.UserPool := {|
  aws_cognito.userPoolName := userPoolName (cognito config);
  aws_cognito.selfSignUpEnabled := true;
  aws_cognito.signInAliases :=
    {| aws_cognito.alias_email := true; aws_cognito.alias_username := false |};
  aws_cognito.autoVerify_email := true;
  aws_cognito.standardAttributes :=
    [ ("email",
       {| aws_cognito.required := true; aws_cognito.mutable := true |});
      ("givenName",
       {| aws_cognito.required := false; aws_cognito.mutable := true |});
      ("familyName",
       {| aws_cognito.required := false; aws_cognito.mutable := true |});
      ("profilePicture",
       {| aws_cognito.required := false; aws_cognito.mutable := true |}) ];
  aws_cognito.customAttributes :=
    [ ("provider", {| aws_cognito.string_mutable := false |});
      ("difficulty_preference", {| aws_cognito.string_mutable := true |});
      ("preferred_language", {| aws_cognito.string_mutable := true |}) ];
  aws_cognito.passwordPolicy :=
    {| aws_cognito.minLength := 8;
       aws_cognito.requireLowercase := true;
       aws_cognito.requireUppercase := true;
       aws_cognito.requireDigits := true;
       aws_cognito.requireSymbols := false |};
  aws_cognito.accountRecovery := aws_cognito.EMAIL_ONLY;
  aws_cognito.removalPolicy :=
    if bool_decide (environment config = Production)
    then cdk.RETAIN else cdk.DESTROY |}.

(** [new cognito.UserPoolClient(this, 'UserPoolClient', {...})] *)
Definition UserPoolClient (config : EnvironmentConfig)
  : aws_cognito.UserPoolClient := {|
  aws_cognito.userPool := "UserPool";
  aws_cognito.userPoolClientName := appName config +:+ "-mobile-client";
  aws_cognito.generateSecret := false;
  aws_cognito.authFlows :=
    {| aws_cognito.userPassword := true;
       aws_cognito.userSrp := true;
       aws_cognito.custom := true |};
  aws_cognito.oAuth :=
    {| aws_cognito.flows :=
         {| aws_cognito.authorizationCodeGrant := true;
            aws_cognito.implicitCodeGrant := false |};
       aws_cognito.scopes :=
         [aws_cognito.EMAIL; aws_cognito.OPENID; aws_cognito.PROFILE];
       aws_cognito.callbackUrls := allowedCallbackURLs (cognito config);
       aws_cognito.logoutUrls := allowedLogoutURLs (cognito config) |};
  aws_cognito.supportedIdentityProviders :=
    [ aws_cognito.COGNITO; aws_cognito.GOOGLE; aws_cognito.FACEBOOK;
      aws_cognito.APPLE ] |}.

(** The constructor [new AuthStack(scope, id, config, props)]. *)
Definition new (id : string) (config : EnvironmentConfig) : t := {|
  stack_id := id;
  userPool := UserPool config;
  userPoolClient := UserPoolClient config;
  outputs := [
    {| output_id := "UserPoolId";
       value := userPoolId;
       description := "Cognito User Pool ID";
       exportName := stackPrefix config +:+ "-UserPoolId" |};
    {| output_id := "UserPoolArn";
       value := userPoolArn;
       description := "Cognito User Pool ARN";
       exportName := stackPrefix config +:+ "-UserPoolArn" |};
    {| output_id := "UserPoolClientId";
       value := userPoolClientId;
       description := "Cognito User Pool Client ID";
       exportName := stackPrefix config +:+ "-UserPoolClientId" |} ] |}.

End AuthStack.

(** The export names of the outputs of the three stacks the sources
    declare outputs for, as one app synthesizes them. *)
Module Exports.

Import Environment.

Definition of_monitoring (stack : MonitoringStack.t) : list string :=
  omap (λ child, match child.2 with
                 | MonitoringStack.CfnOutput o => Some (cdk.exportName o)
                 | _ => None
                 end)
       (MonitoringStack.node_children stack).

Definition all (config : EnvironmentConfig)
    (lambdaFunctions : list aws_lambda.Function) : list string :=
  (AuthStack.exportName
     <$> AuthStack.outputs
           (AuthStack.new (stackPrefix config +:+ "-Auth") config))
  ++ (cdk.exportName
        <$> StorageStack.outputs
              (StorageStack.new (stackPrefix config +:+ "-Storage") config))
  ++ of_monitoring
       (MonitoringStack.make (stackPrefix config +:+ "-Monitoring") config
          lambdaFunctions).

End Exports.

(** ** scripts/deploy.sh and scripts/setup.sh *)

(** Scripts that run under [set -e]: a script writes lines, starts
    commands, and ends either by reaching its last line or by [exit], which
    [set -e] also brings about when a simple command fails. *)
Module Sh.

Import DestroyScript.

(** A step of a script maps the events so far to the events after it, and
    either yields a value or ends the script with an exit status. *)
Definition Script (A : Type) : Type := list Event → list Event * (A + Z).

#[global] Instance Script_ret : MRet Script := λ A a events, (events, inl a).
#[global] Instance Script_bind : MBind Script :=
  λ A B f m events,
    match m events with
    | (events', inl a) => f a events'
    | (events', inr status) => (events', inr status)
    end.

Definition emit (e : Event) : Script unit :=
  λ events, (events ++ [e], inl tt).

(** [exit status] *)
Definition exit (status : Z) : Script unit :=
  λ events, (events, inr status).

(** A command started where [set -e] does not apply: as the condition of
    an [if], or on the left of [||].  It yields the exit status the
    command has. *)
Definition status_of (command_line : string) (status : Z) : Script Z :=
  λ events, (events ++ [run command_line], inl status).

(** A simple command: when it fails, [set -e] ends the script with the
    status of the command. *)
Definition simple (command_line : string) (status : Z) : Script unit :=
  s ← status_of command_line status;
  if bool_decide (s = 0) then mret tt else exit s.

(** [$(...)]: the output of the command without its NUL bytes and without
    the newlines it ends in. *)
Fixpoint drop_newlines (reversed : list ascii) : list ascii :=
  match reversed with
  | c :: rest =>
      if bool_decide (c = newline) then drop_newlines rest else reversed
  | [] => []
  end.

Definition command_substitution (output : string) : string :=
  String.string_of_list_ascii
    (reverse
       (drop_newlines
          (reverse
             (filter (λ c, c ≠ NUL) (String.list_ascii_of_string output))))).

(** [NAME=$(command)] as a simple command: the value assigned, unless the
    command fails. *)
Definition assign (command_line : string) (result : string * Z)
  : Script string :=
  simple command_line result.2 ;;
  mret (command_substitution result.1).

(** [read -p text NAME]: the value assigned; when [read] fails, [set -e]
    ends the script with status 1. *)
Definition read_prompt (text stdin : string) : Script string :=
  emit (prompt text) ;;
  match read stdin with
  | Some value => mret value
  | None => exit 1 ≫= λ _, mret ""
  end.

(** A whole script: its events and its exit status, which is that of the
    last command, an [echo], when the script reaches its end. *)
Definition run_script (script : Script unit) : Result :=
  match script [] with
  | (events, inl _) => {| events := events; exit_status := 0 |}
  | (events, inr status) => {| events := events; exit_status := status |}
  end.

End Sh.

(** What the scripts find when they call out: for each command the exit
    status and, where the script captures it, the output.  Redirections
    are left out of the command lines, and commands are taken not to read
    the standard input of the script. *)
Module Tools.

Record t : Type := {
  (** [command -v node], [command -v aws] *)
  node_installed : bool;
  aws_installed : bool;
  (** the output of [node -v] and of [aws --version] *)
  node_version : string;
  aws_version : string;
  (** [aws sts get-caller-identity] *)
  get_caller_identity : Z;
  (** [aws sts get-caller-identity --query Account --output text] *)
  account : string * Z;
  (** [aws configure get region] *)
  configured_region : string * Z;
  (** [[ -d node_modules ]] *)
  node_modules : bool;
  npm_install : Z;
  npm_run_build : Z;
  cdk_synth : Z;
  cdk_diff : Z;
  cdk_deploy : Z;
  (** [aws cloudformation describe-stacks --stack-name CDKToolkit ...] *)
  describe_toolkit_stack : Z;
  cdk_bootstrap : Z }.

(** A machine with Node.js and a configured AWS CLI on which every command
    succeeds but the diff, given what [node -v] prints, what
    [aws configure get region] does, and the status of describing the
    toolkit stack. *)
Definition example (node_version : string) (region : string * Z)
  (described : Z) : t :=
  {| node_installed := true; aws_installed := true;
     node_version := node_version;
     aws_version := String.append "aws-cli/2.15.30" (String "010" EmptyString);
     get_caller_identity := 0;
     account := (String.append "123456789012" (String "010" EmptyString), 0);
     configured_region := region;
     node_modules := false; npm_install := 0;
     npm_run_build := 0; cdk_synth := 0;
     cdk_diff := 1; cdk_deploy := 0;
     describe_toolkit_stack := described; cdk_bootstrap := 0 |}.

End Tools.

Module DeployScript.

Import DestroyScript Sh.

Definition echo_line (line : string) : Script unit := emit (echo line).

(** [REGION=$(aws configure get region || echo "us-east-1")]: the [echo]
    adds its line to whatever the failed command has written; the
    assignment itself never fails. *)
Definition REGION (tools : Tools.t) : Script string :=
  s ← status_of "aws configure get region" (Tools.configured_region tools).2;
  mret (command_substitution
          ((Tools.configured_region tools).1
             +:+ (if bool_decide (s = 0) then ""
                  else "us-east-1" +:+ end_of_line))).

Definition synth_command (ENVIRONMENT : string) : string :=
  "npm run cdk:synth -- --context environment=" +:+ ENVIRONMENT.

Definition diff_command (ENVIRONMENT : string) : string :=
  "npm run cdk:diff -- --context environment=" +:+ ENVIRONMENT.

Definition deploy_command (ENVIRONMENT : string) : string :=
  "npm run cdk:deploy -- --all --context environment="
    +:+ ENVIRONMENT +:+ " --require-approval never".

Definition script (args : list string) (stdin : string) (tools : Tools.t)
  : Script unit :=
  let ENVIRONMENT := ENVIRONMENT args in
  echo_line rule ;;
  echo_line "Deploying Readafull Infrastructure" ;;
  echo_line ("Environment: " +:+ ENVIRONMENT) ;;
  echo_line rule ;;
  identity ← status_of "aws sts get-caller-identity"
                       (Tools.get_caller_identity tools);
  (if bool_decide (identity ≠ 0)
   then echo_line
          "Error: AWS CLI is not configured. Please run 'aws configure' first." ;;
        exit 1
   else mret tt) ;;
  echo_line "" ;;
  echo_line "Checking CDK bootstrap status..." ;;
  ACCOUNT_ID ← assign
    "aws sts get-caller-identity --query Account --output text"
    (Tools.account tools);
  REGION ← REGION tools;
  echo_line ("Account: " +:+ ACCOUNT_ID) ;;
  echo_line ("Region: " +:+ REGION) ;;
  (if Tools.node_modules tools then mret tt
   else echo_line "" ;;
        echo_line "Installing dependencies..." ;;
        simple "npm install" (Tools.npm_install tools)) ;;
  echo_line "" ;;
  echo_line "Building TypeScript..." ;;
  simple "npm run build" (Tools.npm_run_build tools) ;;
  echo_line "" ;;
  echo_line "Synthesizing CloudFormation templates..." ;;
  simple (synth_command ENVIRONMENT) (Tools.cdk_synth tools) ;;
  echo_line "" ;;
  echo_line "Showing infrastructure changes..." ;;
  (* [... || true] *)
  _ ← status_of (diff_command ENVIRONMENT) (Tools.cdk_diff tools);
  echo_line "" ;;
  CONFIRM ← read_prompt "Do you want to proceed with deployment? (yes/no): "
                        stdin;
  (if bool_decide (CONFIRM ≠ "yes")
   then echo_line "Deployment cancelled." ;; exit 0
   else mret tt) ;;
  echo_line "" ;;
  echo_line "Deploying all stacks..." ;;
  simple (deploy_command ENVIRONMENT) (Tools.cdk_deploy tools) ;;
  echo_line "" ;;
  echo_line rule ;;
  echo_line "Deployment completed successfully!" ;;
  echo_line rule.

Definition deploy_sh (args : list string) (stdin : string) (tools : Tools.t)
  : Result :=
  run_script (script args stdin tools).

End DeployScript.

Module SetupScript.

Import DestroyScript Sh.

#[local] Open Scope char_scope.

(** *** [cut -d DELIM -f N]

    The lines of the input: the text before each newline, and the text
    after the last newline when there is some. *)
Fixpoint lines (input line : list ascii) : list (list ascii) :=
  match input with
  | [] => match line with [] => [] | _ :: _ => [line] end
  | c :: rest =>
      if bool_decide (c = newline) then line :: lines rest []
      else lines rest (line ++ [c])
  end.

(** The fields of a line. *)
Fixpoint fields (delimiter : ascii) (line field : list ascii)
  : list (list ascii) :=
  match line with
  | [] => [field]
  | c :: rest =>
      if bool_decide (c = delimiter) then field :: fields delimiter rest []
      else fields delimiter rest (field ++ [c])
  end.

(** A line without the delimiter is passed on whole; of any other line the
    field numbered [n], counting from 1, is. *)
Definition cut_line (delimiter : ascii) (n : nat) (line : list ascii)
  : list ascii :=
  if bool_decide (delimiter ∈ line)
  then default [] (fields delimiter line [] !! pred n)
  else line.

Definition cut (delimiter : ascii) (n : nat) (input : list ascii)
  : list ascii :=
  concat ((λ line, cut_line delimiter n line ++ [newline]) <$> lines input []).

(** [$(node -v | cut -d 'v' -f 2 | cut -d '.' -f 1)] *)
Definition NODE_VERSION (node_version : string) : string :=
  command_substitution
    (String.string_of_list_ascii
       (cut "." 1 (cut "v" 2 (String.list_ascii_of_string node_version)))).

(** *** [[ A -lt B ]]

    An operand is a decimal integer with an optional sign, white space
    before it and blanks after it, that fits a 64-bit signed integer. *)
Definition isspace (c : ascii) : bool :=
  bool_decide (c ∈ [" "; tab; newline; "011"; "012"; "013"]).

Definition blank (c : ascii) : bool :=
  bool_decide (c = " ") || bool_decide (c = tab).

Definition digit (c : ascii) : option Z :=
  let n := Z.of_nat (nat_of_ascii c) in
  if bool_decide (48 ≤ n ≤ 57)%Z then Some (n - 48)%Z else None.

Definition is_digit (c : ascii) : Prop := is_Some (digit c).

Fixpoint skip (p : ascii → bool) (s : list ascii) : list ascii :=
  match s with
  | c :: rest => if p c then skip p rest else s
  | [] => []
  end.

(** The number the leading digits of [s] denote after [value], and what
    follows them. *)
Fixpoint digits (s : list ascii) (value : Z) : Z * list ascii :=
  match s with
  | c :: rest =>
      match digit c with
      | Some d => digits rest (10 * value + d)%Z
      | None => (value, s)
      end
  | [] => (value, [])
  end.

Definition legal_number (s : string) : option Z :=
  let s := skip isspace (String.list_ascii_of_string s) in
  let (negative, s) :=
    match s with
    | "-" :: rest => (true, rest)
    | "+" :: rest => (false, rest)
    | _ => (false, s)
    end in
  match s with
  | c :: _ =>
      match digit c with
      | Some _ =>
          let (magnitude, rest) := digits s 0 in
          let value := if negative then (- magnitude)%Z else magnitude in
          if bool_decide (- 2 ^ 63 ≤ value < 2 ^ 63)%Z
             && bool_decide (skip blank rest = [])
          then Some value else None
      | None => None
      end
  | [] => None
  end.

(** The exit status of [[ "$a" -lt b ]]: 0 when [a] is less than [b], 1
    when it is not, 2 when [a] is not an integer. *)
Definition test_lt (a : string) (b : Z) : Z :=
  match legal_number a with
  | Some value => if bool_decide (value < b)%Z then 0%Z else 1%Z
  | None => 2%Z
  end.

#[local] Close Scope char_scope.

(** *** The script *)

Definition echo_line (line : string) : Script unit := emit (echo line).

Definition bootstrap_command (ACCOUNT_ID REGION : string) : string :=
  "npx cdk bootstrap aws://" +:+ ACCOUNT_ID +:+ "/" +:+ REGION.

Definition describe_command (REGION : string) : string :=
  "aws cloudformation describe-stacks --stack-name CDKToolkit --region "
    +:+ REGION.

Definition script (tools : Tools.t) : Script unit :=
  echo_line rule ;;
  echo_line "Setting up Readafull Infrastructure" ;;
  echo_line rule ;;
  (if Tools.node_installed tools then mret tt
   else echo_line
          "Error: Node.js is not installed. Please install Node.js 18 or later." ;;
        exit 1) ;;
  let NODE_VERSION := NODE_VERSION (Tools.node_version tools) in
  (if bool_decide (test_lt NODE_VERSION 18 = 0)
   then echo_line
          ("Error: Node.js version must be 18 or later. Current version: "
             +:+ command_substitution (Tools.node_version tools)) ;;
        exit 1
   else mret tt) ;;
  echo_line ("✓ Node.js version: "
               +:+ command_substitution (Tools.node_version tools)) ;;
  (if Tools.aws_installed tools then mret tt
   else echo_line "Error: AWS CLI is not installed. Please install AWS CLI." ;;
        exit 1) ;;
  echo_line ("✓ AWS CLI version: "
               +:+ command_substitution (Tools.aws_version tools)) ;;
  identity ← status_of "aws sts get-caller-identity"
                       (Tools.get_caller_identity tools);
  (if bool_decide (identity ≠ 0)
   then echo_line
          "Error: AWS CLI is not configured. Please run 'aws configure' first." ;;
        exit 1
   else mret tt) ;;
  ACCOUNT_ID ← assign
    "aws sts get-caller-identity --query Account --output text"
    (Tools.account tools);
  REGION ← DeployScript.REGION tools;
  echo_line ("✓ AWS Account: " +:+ ACCOUNT_ID) ;;
  echo_line ("✓ AWS Region: " +:+ REGION) ;;
  echo_line "" ;;
  echo_line "Installing npm dependencies..." ;;
  simple "npm install" (Tools.npm_install tools) ;;
  echo_line "✓ Dependencies installed" ;;
  echo_line "" ;;
  echo_line "Building TypeScript..." ;;
  simple "npm run build" (Tools.npm_run_build tools) ;;
  echo_line "✓ TypeScript compiled" ;;
  echo_line "" ;;
  echo_line "Checking CDK bootstrap status..." ;;
  described ← status_of (describe_command REGION)
                        (Tools.describe_toolkit_stack tools);
  (if bool_decide (described = 0)
   then echo_line ("✓ CDK already bootstrapped in " +:+ REGION)
   else echo_line ("Bootstrapping CDK in " +:+ REGION +:+ "...") ;;
        simple (bootstrap_command ACCOUNT_ID REGION)
               (Tools.cdk_bootstrap tools) ;;
        echo_line "✓ CDK bootstrapped") ;;
  echo_line "" ;;
  echo_line rule ;;
  echo_line "Setup completed successfully!" ;;
  echo_line rule ;;
  echo_line "" ;;
  echo_line "Next steps:" ;;
  echo_line "1. Deploy infrastructure: npm run cdk:deploy:dev" ;;
  echo_line "2. View infrastructure changes: npm run cdk:diff" ;;
  echo_line "3. Destroy infrastructure: npm run cdk:destroy".

Definition setup_sh (tools : Tools.t) : Result := run_script (script tools).

End SetupScript.

(** * Properties *)

(** ** The environment resolver *)

Section Resolver.

Import Environment.

(** The own properties of [configs]. *)
Lemma configs_lookup (env : string) :
  configs !! env =
    if decide (env = "development") then Some development
    else if decide (env = "staging") then Some staging
    else if decide (env = "production") then Some production
    else None.
Proof.
  unfold configs.
  destruct (decide (env = "development")) as [->|?];
    [by rewrite lookup_insert_eq | rewrite lookup_insert_ne by done].
  destruct (decide (env = "staging")) as [->|?];
    [by rewrite lookup_insert_eq | rewrite lookup_insert_ne by done].
  destruct (decide (env = "production")) as [->|?];
    [by rewrite lookup_insert_eq | rewrite lookup_insert_ne by done].
  apply lookup_empty.
Qed.

Lemma configs_development :
  Js.get configs "development" = Js.own development.
Proof. unfold Js.get. rewrite configs_lookup. reflexivity. Qed.

(** The resolver on a string that names no own property of [configs] and
    no member of [Object.prototype]. *)
Lemma getEnvironmentConfig_fallback (s : string) :
  s ∉ ["development"; "staging"; "production"] →
  s ∉ Js.Object_prototype →
  getEnvironmentConfig s = Js.own development.
Proof.
  intros Hs Hproto.
  apply not_elem_of_cons in Hs as [Hdev Hs].
  apply not_elem_of_cons in Hs as [Hstg Hs].
  apply not_elem_of_cons in Hs as [Hprod _].
  unfold getEnvironmentConfig. rewrite configs_development.
  unfold Js.or_string, Js.to_boolean, Js.string_to_boolean.
  case_bool_decide as Hempty; simpl; [apply configs_development |].
  unfold Js.get. rewrite configs_lookup.
  repeat case_decide; done.
Qed.

(** Every configuration record the resolver returns is one of the three
    of [configs], and only the selectors ["staging"] and ["production"]
    yield a record other than [development]. *)
Lemma getEnvironmentConfig_own (s : string) (config : EnvironmentConfig) :
  getEnvironmentConfig s = Js.own config →
  (s = "production" ∧ config = production)
  ∨ (s = "staging" ∧ config = staging)
  ∨ (s ≠ "production" ∧ s ≠ "staging" ∧ config = development).
Proof.
  unfold getEnvironmentConfig. rewrite configs_development.
  unfold Js.or_string, Js.to_boolean, Js.string_to_boolean.
  case_bool_decide as Hempty; simpl.
  { subst s. rewrite configs_development. simpl.
    intros [= <-]. right; right. done. }
  unfold Js.get. rewrite configs_lookup.
  repeat case_decide; subst; simpl; intros [= <-]; eauto 10.
Qed.

(** The resolver on a name that [configs] inherits from
    [Object.prototype]: the read [configs[env]] is truthy, so the [||]
    never reaches [configs.development]. *)
Lemma getEnvironmentConfig_prototype (s : string) :
  s ∈ Js.Object_prototype →
  getEnvironmentConfig s = Js.inherited s.
Proof.
  intros Hs. unfold getEnvironmentConfig. rewrite configs_development.
  assert (Hne : s ≠ "" ∧ s ≠ "development" ∧ s ≠ "staging"
                ∧ s ≠ "production").
  { unfold Js.Object_prototype in Hs.
    repeat (apply elem_of_cons in Hs as [-> | Hs]; [by repeat split |]).
    by apply elem_of_nil in Hs. }
  destruct Hne as (Hempty & Hdev & Hstg & Hprod).
  unfold Js.or_string, Js.to_boolean, Js.string_to_boolean.
  rewrite bool_decide_eq_false_2 by done. simpl.
  unfold Js.get. rewrite configs_lookup.
  rewrite !decide_False by done. by rewrite decide_True.
Qed.

(** C5: for each supported selector, ["development"], ["staging"] or
    ["production"], the resolver returns a configuration record whose
    [environment] field is the selector. *)
Theorem getEnvironmentConfig_supported (s : string) :
  s ∈ ["development"; "staging"; "production"] →
  ∃ config,
    getEnvironmentConfig s = Js.own config ∧ tag (environment config) = s.
Proof.
  intros Hs.
  apply elem_of_cons in Hs as [-> | Hs]; [by exists development; vm_compute |].
  apply elem_of_cons in Hs as [-> | Hs]; [by exists staging; vm_compute |].
  apply elem_of_cons in Hs as [-> | Hs]; [by exists production; vm_compute |].
  by apply elem_of_nil in Hs.
Qed.

Lemma getEnvironmentConfig_supported_witness :
  "staging" ∈ ["development"; "staging"; "production"]
  ∧ ∃ config,
      getEnvironmentConfig "staging" = Js.own config
      ∧ tag (environment config) = "staging".
Proof.
  assert (H : "staging" ∈ ["development"; "staging"; "production"])
    by apply list_elem_of_further, list_elem_of_here.
  split; [exact H | exact (getEnvironmentConfig_supported "staging" H)].
Defined.

(** C4, at the unsupported selector ["constructor"]: the resolver does not
    return the development record but the member of that name which
    [configs] inherits from [Object.prototype]. *)
Theorem getEnvironmentConfig_constructor :
  ("constructor" ∉ ["development"; "staging"; "production"])
  ∧ getEnvironmentConfig "constructor" = Js.inherited "constructor"
  ∧ getEnvironmentConfig "constructor" ≠ Js.own development.
Proof.
  split; [| split].
  - intros H. repeat (apply elem_of_cons in H as [[=] | H]).
    by apply elem_of_nil in H.
  - by vm_compute.
  - by vm_compute.
Qed.

End Resolver.

(** ** The Storage Stack *)

Section Storage.

Import Environment.

(** C3: for every configuration the resolver returns, the main table and
    the audio bucket are retained when the environment is production, and
    destroyed, the bucket with its objects deleted, when it is development
    or staging; the production record is returned for the selector
    ["production"] only. *)
Theorem storage_removal_policy (id s : string) (config : EnvironmentConfig) :
  getEnvironmentConfig s = Js.own config →
  let stack := StorageStack.new id config in
  (environment config = Production →
     aws_dynamodb.removalPolicy (StorageStack.mainTable stack) = cdk.RETAIN
     ∧ aws_s3.removalPolicy (StorageStack.audioBucket stack) = cdk.RETAIN
     ∧ aws_s3.autoDeleteObjects (StorageStack.audioBucket stack) = false)
  ∧ (environment config = Development ∨ environment config = Staging →
     aws_dynamodb.removalPolicy (StorageStack.mainTable stack) = cdk.DESTROY
     ∧ aws_s3.removalPolicy (StorageStack.audioBucket stack) = cdk.DESTROY
     ∧ aws_s3.autoDeleteObjects (StorageStack.audioBucket stack) = true)
  ∧ (environment config = Production ↔ s = "production").
Proof.
  intros H stack. subst stack.
  destruct (getEnvironmentConfig_own _ _ H)
    as [[-> ->] | [[-> ->] | (Hprod & Hstg & ->)]]; simpl;
    (split; [| split]); try done; intros [? | ?]; done.
Qed.

Lemma storage_removal_policy_witness :
  getEnvironmentConfig "production" = Js.own production
  ∧ aws_dynamodb.removalPolicy
      (StorageStack.mainTable
         (StorageStack.new "Readafull-Prod-Storage" production))
    = cdk.RETAIN.
Proof.
  assert (H : getEnvironmentConfig "production" = Js.own production)
    by (vm_compute; reflexivity).
  split; [exact H |].
  exact (proj1 (proj1 (storage_removal_policy "Readafull-Prod-Storage"
                         "production" production H) eq_refl)).
Defined.

(** C10: for every configuration the resolver returns, the main table has
    point-in-time recovery exactly when the environment is production. *)
Theorem table_point_in_time_recovery
    (id s : string) (config : EnvironmentConfig) :
  getEnvironmentConfig s = Js.own config →
  let table := StorageStack.mainTable (StorageStack.new id config) in
  (aws_dynamodb.pointInTimeRecovery table = true
     ↔ environment config = Production)
  ∧ (environment config = Development ∨ environment config = Staging →
     aws_dynamodb.pointInTimeRecovery table = false).
Proof.
  intros H table. subst table.
  destruct (getEnvironmentConfig_own _ _ H)
    as [[-> ->] | [[-> ->] | (Hprod & Hstg & ->)]]; simpl;
    split; try done; intros [? | ?]; done.
Qed.

Lemma table_point_in_time_recovery_witness :
  getEnvironmentConfig "staging" = Js.own staging
  ∧ aws_dynamodb.pointInTimeRecovery
      (StorageStack.mainTable
         (StorageStack.new "Readafull-Staging-Storage" staging))
    = false.
Proof.
  assert (H : getEnvironmentConfig "staging" = Js.own staging)
    by (vm_compute; reflexivity).
  split; [exact H |].
  exact (proj2 (table_point_in_time_recovery "Readafull-Staging-Storage"
                  "staging" staging H) (or_intror eq_refl)).
Defined.

(** C6: for every configuration the resolver returns, the audio bucket has
    one lifecycle rule; it moves objects to the intelligent-tiering
    storage class after 30 days and expires them after the
    [lifecycleDays] of the configuration: 30 days for development, 60 for
    staging, 90 for production. *)
Theorem bucket_lifecycle_rule (id s : string) (config : EnvironmentConfig) :
  getEnvironmentConfig s = Js.own config →
  aws_s3.lifecycleRules (StorageStack.audioBucket (StorageStack.new id config))
  = [ {| aws_s3.id := "DeleteOldAudioFiles";
         aws_s3.enabled := true;
         aws_s3.expiration :=
           cdk.days match environment config with
                    | Development => 30
                    | Staging => 60
                    | Production => 90
                    end;
         aws_s3.transitions :=
           [ {| aws_s3.storageClass := aws_s3.INTELLIGENT_TIERING;
                aws_s3.transitionAfter := cdk.days 30 |} ] |} ].
Proof.
  intros H.
  destruct (getEnvironmentConfig_own _ _ H)
    as [[-> ->] | [[-> ->] | (_ & _ & ->)]]; reflexivity.
Qed.

Lemma bucket_lifecycle_rule_witness :
  getEnvironmentConfig "" = Js.own development
  ∧ aws_s3.expiration <$>
      aws_s3.lifecycleRules
        (StorageStack.audioBucket
           (StorageStack.new "Readafull-Dev-Storage" development))
    = [cdk.days 30].
Proof.
  assert (H : getEnvironmentConfig "" = Js.own development)
    by (vm_compute; reflexivity).
  split; [exact H |].
  rewrite (bucket_lifecycle_rule "Readafull-Dev-Storage" "" development H).
  reflexivity.
Defined.

End Storage.

(** ** The Monitoring Stack *)

Section Monitoring.

Import Environment MonitoringStack.

Lemma alter_last {A} (f : A → A) (l : list A) (x : A) :
  alter f (length l) (l ++ [x]) = l ++ [f x].
Proof.
  replace (length l) with (length l + 0)%nat by lia.
  by rewrite alter_app_r.
Qed.

Lemma declare_log_group_run config fn st :
  declare_log_group config fn st
  = (tt, {| children := children st ++ [log_group_child config fn];
            lambdaWidgets := lambdaWidgets st |}).
Proof. reflexivity. Qed.

Lemma declare_alarms_run config topic fn st :
  declare_alarms config topic fn st
  = (tt, {| children := children st ++ alarm_children config topic fn;
            lambdaWidgets := lambdaWidgets st ++ [widget fn] |}).
Proof.
  unfold declare_alarms, mbind, Synth_bind, new, addAlarmAction, update, push.
  cbn [children lambdaWidgets].
  rewrite alter_last. cbn [prod_map fst snd].
  rewrite alter_last. cbn [prod_map fst snd].
  rewrite alter_last. cbn [prod_map fst snd].
  unfold alarm_children, routed. by rewrite <- !(assoc_L (++)).
Qed.

Lemma forEach_declare_log_group config (fns : list aws_lambda.Function) st :
  forEach fns (declare_log_group config) st
  = (tt, {| children := children st ++ (log_group_child config <$> fns);
            lambdaWidgets := lambdaWidgets st |}).
Proof.
  revert st. induction fns as [| fn fns IH]; intros st; cbn [forEach].
  - unfold mret, Synth_ret. destruct st. cbn. by rewrite app_nil_r.
  - unfold mbind, Synth_bind. rewrite declare_log_group_run, IH.
    cbn [children lambdaWidgets fmap list_fmap].
    by rewrite <- (assoc_L (++)).
Qed.

Lemma forEach_declare_alarms config topic (fns : list aws_lambda.Function) st :
  forEach fns (declare_alarms config topic) st
  = (tt, {| children := children st ++ (fns ≫= alarm_children config topic);
            lambdaWidgets := lambdaWidgets st ++ (widget <$> fns) |}).
Proof.
  revert st. induction fns as [| fn fns IH]; intros st; cbn [forEach].
  - unfold mret, Synth_ret. destruct st. cbn. by rewrite !app_nil_r.
  - unfold mbind at 1, Synth_bind. rewrite declare_alarms_run, IH.
    cbn [children lambdaWidgets]. rewrite bind_cons, fmap_cons.
    by rewrite <- !(assoc_L (++)).
Qed.

Lemma subscribe_alarm_email_run config T0 :
  ∃ T, subscribe_alarm_email config 0
         {| children := [("AlarmTopic", Topic T0)]; lambdaWidgets := [] |}
       = (tt, {| children := [("AlarmTopic", Topic T)]; lambdaWidgets := [] |})
       ∧ aws_sns.topicName T = aws_sns.topicName T0.
Proof.
  unfold subscribe_alarm_email.
  destruct (alarmEmail (monitoring config)) as [email |];
    [destruct (Js.to_boolean email) |]; eexists; split; reflexivity.
Qed.

Lemma add_rows_run steps i ws t name d rest lw :
  ∃ d', add_rows steps i 1 ws
          {| children := t :: (name, Dashboard d) :: rest;
             lambdaWidgets := lw |}
        = (tt, {| children := t :: (name, Dashboard d') :: rest;
                  lambdaWidgets := lw |}).
Proof.
  revert i d. induction steps as [| steps IH]; intros i d; cbn [add_rows].
  - by exists d.
  - case_decide; [| by exists d].
    unfold mbind, Synth_bind, addWidgets, update. cbn.
    apply IH.
Qed.

Lemma constructor_run config (fns : list aws_lambda.Function) :
  ∃ T D o1 o2,
    constructor config fns {| children := []; lambdaWidgets := [] |}
    = ((0%nat, 1%nat),
       {| children :=
            ("AlarmTopic", Topic T) :: ("Dashboard", Dashboard D)
            :: (log_group_child config <$> fns)
            ++ (fns ≫= alarm_children config 0)
            ++ [("AlarmTopicArn", CfnOutput o1); ("DashboardUrl", CfnOutput o2)];
          lambdaWidgets := widget <$> fns |})
    ∧ aws_sns.topicName T = stackPrefix config +:+ "-alarms".
Proof.
  unfold constructor.
  unfold mbind at 1, Synth_bind at 1, new at 1. cbn [children lambdaWidgets app length].
  unfold mbind at 1, Synth_bind at 1.
  destruct (subscribe_alarm_email_run config
              {| aws_sns.topicName := stackPrefix config +:+ "-alarms";
                 aws_sns.displayName :=
                   "Readafull " +:+ tag (environment config) +:+ " Alarms";
                 aws_sns.subscriptions := [] |}) as (T & -> & HT).
  unfold mbind at 1, Synth_bind at 1, new at 1. cbn [children lambdaWidgets app length].
  unfold mbind at 1, Synth_bind at 1. rewrite forEach_declare_log_group.
  unfold mbind at 1, Synth_bind at 1. rewrite forEach_declare_alarms.
  cbn [children lambdaWidgets app].
  unfold mbind at 1, Synth_bind at 1.
  unfold mbind at 1, Synth_bind at 1.
  edestruct add_rows_run as [D ->].
  unfold mbind at 1, Synth_bind at 1, addWidgets at 1, update at 1.
  cbn [children lambdaWidgets alter list_alter prod_map fst snd].
  unfold mbind at 1, Synth_bind at 1, new at 1.
  unfold mbind at 1, Synth_bind at 1, new at 1.
  cbn [children lambdaWidgets app].
  eexists T, _, _, _. split; [| exact HT].
  unfold mret, Synth_ret. f_equal. f_equal.
  rewrite <- !(assoc_L (++)). reflexivity.
Qed.

Lemma make_run id config (fns : list aws_lambda.Function) :
  ∃ T D o1 o2,
    make id config fns
    = {| stack_id := id;
         alarmTopic := 0;
         dashboard := 1;
         node_children :=
           ("AlarmTopic", Topic T) :: ("Dashboard", Dashboard D)
           :: (log_group_child config <$> fns)
           ++ (fns ≫= alarm_children config 0)
           ++ [("AlarmTopicArn", CfnOutput o1);
               ("DashboardUrl", CfnOutput o2)] |}
    ∧ aws_sns.topicName T = stackPrefix config +:+ "-alarms".
Proof.
  destruct (constructor_run config fns) as (T & D & o1 & o2 & Hrun & HT).
  exists T, D, o1, o2. split; [| exact HT].
  unfold make. by rewrite Hrun.
Qed.

Lemma alarms_of_log_groups config (fns : list aws_lambda.Function) :
  omap alarm_of (log_group_child config <$> fns) = [].
Proof. by induction fns. Qed.

Lemma log_groups_of_log_groups config (fns : list aws_lambda.Function) :
  omap log_group_of (log_group_child config <$> fns)
  = LogGroup_props config <$> fns.
Proof. induction fns as [| fn fns IH]; [done |]. cbn. by f_equal. Qed.

Lemma alarms_of_alarms config topic (fns : list aws_lambda.Function) :
  omap alarm_of (fns ≫= alarm_children config topic)
  = fns ≫= λ fn, [ routed topic (errorAlarm_props config fn);
                    routed topic (throttleAlarm_props config fn);
                    routed topic (durationAlarm_props config fn) ].
Proof.
  induction fns as [| fn fns IH]; [done |].
  rewrite !bind_cons, omap_app, IH. done.
Qed.

Lemma log_groups_of_alarms config topic (fns : list aws_lambda.Function) :
  omap log_group_of (fns ≫= alarm_children config topic) = [].
Proof.
  induction fns as [| fn fns IH]; [done |].
  rewrite bind_cons, omap_app, IH. done.
Qed.

(** The alarms of a stack are the three alarms of each function handed to
    it, in order, each routed to the topic of the stack. *)
Lemma alarms_make id config (fns : list aws_lambda.Function) :
  alarms (make id config fns)
  = fns ≫= λ fn, [ routed 0 (errorAlarm_props config fn);
                    routed 0 (throttleAlarm_props config fn);
                    routed 0 (durationAlarm_props config fn) ].
Proof.
  destruct (make_run id config fns) as (T & D & o1 & o2 & -> & _).
  unfold alarms. cbn [node_children omap list_omap alarm_of snd].
  rewrite !omap_app, alarms_of_log_groups, alarms_of_alarms.
  cbn. by rewrite app_nil_r.
Qed.

Lemma log_groups_make id config (fns : list aws_lambda.Function) :
  log_groups (make id config fns) = LogGroup_props config <$> fns.
Proof.
  destruct (make_run id config fns) as (T & D & o1 & o2 & -> & _).
  unfold log_groups. cbn [node_children omap list_omap log_group_of snd].
  rewrite !omap_app, log_groups_of_log_groups, log_groups_of_alarms.
  cbn. by rewrite app_nil_r.
Qed.

(** C2: for every configuration the resolver returns and every list of
    functions handed to the Monitoring Stack, the alarms of the stack are,
    function by function, exactly three: an error alarm (sum of Errors over
    5 minutes, threshold 10), a throttle alarm (sum of Throttles over 5
    minutes, threshold 5) and a duration alarm (average Duration over 5
    minutes), each over 2 evaluation periods and each with the alarm topic
    of the stack as its only action.  The duration threshold is 24000 for
    development and 48000 for staging and production, which is the double
    of 800 times the configured timeout of 30 and 60 seconds: exactly 80%
    of the timeout in milliseconds. *)
Theorem monitoring_alarms (id s : string) (config : EnvironmentConfig)
    (fns : list aws_lambda.Function) :
  getEnvironmentConfig s = Js.own config →
  let stack := make id config fns in
  let duration_ms :=
    match environment config with
    | Development => 24000%float
    | Staging | Production => 48000%float
    end in
  let alarm fn metricName statistic suffix threshold := {|
    aws_cloudwatch.alarmName :=
      stackPrefix config +:+ "-" +:+ aws_lambda.functionName fn +:+ suffix;
    aws_cloudwatch.metric := {|
      aws_cloudwatch.namespace := "AWS/Lambda";
      aws_cloudwatch.metricName := metricName;
      aws_cloudwatch.dimensionsMap :=
        [("FunctionName", aws_lambda.functionName fn)];
      aws_cloudwatch.statistic := statistic;
      aws_cloudwatch.period := cdk.minutes 5 |};
    aws_cloudwatch.threshold := threshold;
    aws_cloudwatch.evaluationPeriods := 2;
    aws_cloudwatch.comparisonOperator := aws_cloudwatch.GREATER_THAN_THRESHOLD;
    aws_cloudwatch.treatMissingData := aws_cloudwatch.NOT_BREACHING;
    aws_cloudwatch.alarmActions :=
      [aws_cloudwatch.SnsAction (alarmTopic stack)] |} in
  alarms stack
  = (fns ≫= λ fn, [ alarm fn "Errors" "Sum" "-errors" 10%float;
                    alarm fn "Throttles" "Sum" "-throttles" 5%float;
                    alarm fn "Duration" "Average" "-duration" duration_ms ])
  ∧ (∃ topic,
       node_children stack !! alarmTopic stack
       = Some ("AlarmTopic", Topic topic)
       ∧ aws_sns.topicName topic = stackPrefix config +:+ "-alarms")
  ∧ duration_ms = Js.number (timeout (lambda config) * 800)
  ∧ (timeout (lambda config)
     = match environment config with
       | Development => 30
       | Staging | Production => 60
       end).
Proof.
  intros H stack duration_ms alarm.
  assert (Htopic : alarmTopic stack = 0%nat).
  { subst stack.
    by destruct (make_run id config fns) as (T & D & o1 & o2 & -> & _). }
  split; [| split; [| split]].
  - subst stack alarm duration_ms. rewrite Htopic, alarms_make.
    destruct (getEnvironmentConfig_own _ _ H)
      as [[-> ->] | [[-> ->] | (_ & _ & ->)]]; reflexivity.
  - subst stack.
    destruct (make_run id config fns) as (T & D & o1 & o2 & -> & HT).
    by exists T.
  - subst duration_ms.
    destruct (getEnvironmentConfig_own _ _ H)
      as [[-> ->] | [[-> ->] | (_ & _ & ->)]]; reflexivity.
  - destruct (getEnvironmentConfig_own _ _ H)
      as [[-> ->] | [[-> ->] | (_ & _ & ->)]]; reflexivity.
Qed.

Lemma monitoring_alarms_witness :
  getEnvironmentConfig "production" = Js.own production
  ∧ aws_cloudwatch.threshold <$>
      alarms (make "Readafull-Prod-Monitoring" production
                [ {| aws_lambda.node_id := "TranslationFunction";
                     aws_lambda.functionName := "readafull-translation" |} ])
    = [10%float; 5%float; 48000%float].
Proof.
  assert (H : getEnvironmentConfig "production" = Js.own production)
    by (vm_compute; reflexivity).
  split; [exact H |].
  rewrite (proj1 (monitoring_alarms "Readafull-Prod-Monitoring" "production"
                    production _ H)).
  reflexivity.
Defined.

(** C9: whatever the configuration and the functions handed to the
    Monitoring Stack, every alarm of the stack treats missing data as not
    breaching. *)
Theorem alarms_treat_missing_data (id : string) (config : EnvironmentConfig)
    (fns : list aws_lambda.Function) :
  Forall (λ a, aws_cloudwatch.treatMissingData a = aws_cloudwatch.NOT_BREACHING)
         (alarms (make id config fns)).
Proof.
  rewrite alarms_make. apply Forall_bind, Forall_forall. intros fn _.
  by repeat constructor.
Qed.

(** No key of the form [DAYS_...] is among keys none of which starts with
    [DAYS_]. *)
Lemma DAYS_key_fresh (keys : list string) (suffix : string) :
  forallb (λ k, negb (String.prefix "DAYS_" k)) keys = true →
  "DAYS_" +:+ suffix ∉ keys.
Proof.
  intros Hall Hin. apply list_elem_of_In in Hin.
  rewrite List.forallb_forall in Hall. specialize (Hall _ Hin).
  by destruct suffix.
Qed.

(** The read [logs.RetentionDays[`DAYS_${days}`]] is [undefined] whatever
    the number of days, and the retention is that of [ONE_WEEK]. *)
Lemma retention_for_one_week (days : Z) :
  retention_for days = Js.own (Js.member 7).
Proof.
  unfold retention_for.
  assert (Hget : Js.get aws_logs.RetentionDays ("DAYS_" +:+ Js.to_string days)
                 = Js.undefined).
  { unfold Js.get, aws_logs.RetentionDays, Js.enum.
    rewrite (not_elem_of_list_to_map_1 _ ("DAYS_" +:+ Js.to_string days)).
    - rewrite decide_False; [done |].
      apply DAYS_key_fresh. by vm_compute.
    - apply DAYS_key_fresh. by vm_compute. }
  rewrite Hget. by vm_compute.
Qed.

(** C1, on the code: whatever the configuration, every function handed to
    the Monitoring Stack gets one log group and its retention is that of
    [ONE_WEEK], 7 days.  The configured 14 days of staging and 30 days of
    production are not mapped to the members [TWO_WEEKS] and [ONE_MONTH]
    that carry these numbers, because no member is named [DAYS_14] or
    [DAYS_30]. *)
Theorem log_retention_is_one_week :
  (∀ (id : string) (config : EnvironmentConfig)
     (fns : list aws_lambda.Function),
     log_groups (make id config fns)
     = (λ fn, {| aws_logs.logGroupName :=
                   "/aws/lambda/" +:+ aws_lambda.functionName fn;
                 aws_logs.retention := Js.own (Js.member 7);
                 aws_logs.removalPolicy := cdk.DESTROY |}) <$> fns)
  ∧ logRetentionDays (monitoring staging) = 14
  ∧ Js.get aws_logs.RetentionDays "TWO_WEEKS" = Js.own (Js.member 14)
  ∧ logRetentionDays (monitoring production) = 30
  ∧ Js.get aws_logs.RetentionDays "ONE_MONTH" = Js.own (Js.member 30).
Proof.
  split; [| by vm_compute].
  intros id config fns. rewrite log_groups_make.
  unfold LogGroup_props. by rewrite retention_for_one_week.
Qed.

End Monitoring.

(** ** The entry point *)

Section EntryPoint.

Import Environment Readafull.

Lemma synth_run (api : ApiStack.t) (config : EnvironmentConfig) :
  ∃ auth storage monitoring,
    (synth api config []).2
    = [ {| id := stackPrefix config +:+ "-Auth";
           body := AuthStack auth;
           dependencies := ∅ |};
        {| id := stackPrefix config +:+ "-Storage";
           body := StorageStack storage;
           dependencies := ∅ |};
        {| id := stackPrefix config +:+ "-Api";
           body := ApiStack api;
           dependencies := {[1%nat]} ∪ ({[0%nat]} ∪ ∅) |};
        {| id := stackPrefix config +:+ "-Monitoring";
           body := MonitoringStack monitoring;
           dependencies := {[2%nat]} ∪ ∅ |} ].
Proof. by eexists _, _, _. Qed.

(** A relation whose edges all lead to a smaller position has no cycle. *)
Lemma decreasing_acyclic (app : App) :
  (∀ i j, depends_on app i j → (j < i)%nat) → acyclic app.
Proof.
  intros Hdec i Hcycle.
  assert (Hlt : ∀ x y, tc (depends_on app) x y → (y < x)%nat).
  { induction 1 as [x y Hxy | x y z Hxy _ IH].
    - by apply Hdec.
    - apply Hdec in Hxy. lia. }
  apply Hlt in Hcycle. lia.
Qed.

(** C8: when the entry point synthesizes an app, the app has the four
    stacks Auth, Storage, Api and Monitoring, in this order; Auth and
    Storage depend on nothing, Api depends on Auth and on Storage,
    Monitoring depends on Api, there is no other dependency, and the
    dependency relation has no cycle. *)
Theorem stack_dependency_graph
    (api : ApiStack.t) (context : option string) (app : App) :
  main api context = Some app →
  ∃ config auth storage apiStack monitoring,
    app = [auth; storage; apiStack; monitoring]
    ∧ id auth = stackPrefix config +:+ "-Auth"
    ∧ id storage = stackPrefix config +:+ "-Storage"
    ∧ id apiStack = stackPrefix config +:+ "-Api"
    ∧ id monitoring = stackPrefix config +:+ "-Monitoring"
    ∧ dependencies auth = ∅
    ∧ dependencies storage = ∅
    ∧ dependencies apiStack = {[0%nat; 1%nat]}
    ∧ dependencies monitoring = {[2%nat]}
    ∧ (∀ i j, depends_on app i j
              ↔ (i = 2 ∧ j = 0) ∨ (i = 2 ∧ j = 1) ∨ (i = 3 ∧ j = 2))%nat
    ∧ acyclic app.
Proof.
  unfold main. intros Hmain.
  destruct (getEnvironmentConfig _) as [| config | name]; [done | idtac | done].
  destruct (synth_run api config) as (auth & storage & monitoring & Hrun).
  rewrite Hrun in Hmain. injection Hmain as <-.
  assert (Hedges : ∀ i j,
    depends_on
      [ {| id := stackPrefix config +:+ "-Auth"; body := AuthStack auth;
           dependencies := ∅ |};
        {| id := stackPrefix config +:+ "-Storage";
           body := StorageStack storage; dependencies := ∅ |};
        {| id := stackPrefix config +:+ "-Api"; body := ApiStack api;
           dependencies := {[1%nat]} ∪ ({[0%nat]} ∪ ∅) |};
        {| id := stackPrefix config +:+ "-Monitoring";
           body := MonitoringStack monitoring;
           dependencies := {[2%nat]} ∪ ∅ |} ] i j
    ↔ ((i = 2 ∧ j = 0) ∨ (i = 2 ∧ j = 1) ∨ (i = 3 ∧ j = 2))%nat).
  { intros i j. unfold depends_on. split.
    - intros (s & Hs & Hj).
      destruct i as [| [| [| [| i]]]]; simplify_eq/=;
        set_unfold in Hj; intuition lia.
    - intros [[-> ->] | [[-> ->] | [-> ->]]]; eexists; (split; [reflexivity |]);
        simpl; set_unfold; tauto. }
  eexists config, _, _, _, _. split; [reflexivity |].
  cbn [id dependencies].
  split_and!; [reflexivity .. | set_solver | set_solver | exact Hedges |].
  apply decreasing_acyclic. intros i j Hij. apply Hedges in Hij. lia.
Qed.

Lemma stack_dependency_graph_witness :
  main ApiStack.example (Some "staging")
  = Some (synth ApiStack.example staging []).2
  ∧ acyclic (synth ApiStack.example staging []).2.
Proof.
  assert (H : main ApiStack.example (Some "staging")
              = Some (synth ApiStack.example staging []).2)
    by (vm_compute; reflexivity).
  split; [exact H |].
  destruct (stack_dependency_graph ApiStack.example (Some "staging") _ H)
    as (? & ? & ? & ? & ? & ? & ? & ? & ? & ? & ? & ? & ? & ? & ? & Hacyclic).
  exact Hacyclic.
Defined.

End EntryPoint.

(** ** The destroy script *)

Section Destroy.

Import DestroyScript.

Lemma plain_inv c :
  plain c →
  c ≠ backslash ∧ c ≠ newline ∧ c ≠ " "%char ∧ c ≠ tab ∧ c ≠ NUL
  ∧ c ≠ CTLESC ∧ c ≠ CTLNUL.
Proof.
  unfold plain. rewrite !not_elem_of_cons. tauto.
Qed.

Lemma plain_not_ifs c : plain c → ifs c = false.
Proof.
  intros (_ & Hnl & Hsp & Htab & _)%plain_inv. unfold ifs.
  by rewrite !bool_decide_eq_false_2.
Qed.

Lemma read_loop_plain (line : list ascii) (rest : string) (acc : list ascii) :
  Forall plain line →
  read_loop (String.string_of_list_ascii line +:+ String newline rest) false acc
  = Some (acc ++ line).
Proof.
  intros Hplain. revert acc.
  induction Hplain as [| c line Hc _ IH]; intros acc; simpl.
  - by rewrite app_nil_r.
  - apply plain_inv in Hc as (? & ? & ? & ? & ? & ? & ?).
    rewrite !bool_decide_eq_false_2 by done. cbn.
    rewrite IH. by rewrite <- (assoc_L (++)).
Qed.

Lemma c_string_plain line : Forall plain line → c_string line = line.
Proof.
  induction 1 as [| c line Hc _ IH]; [done |]. cbn.
  apply plain_inv in Hc as (? & ? & ? & ? & ? & ? & ?).
  rewrite bool_decide_eq_false_2 by done. by rewrite IH.
Qed.

Lemma string_extract_verbatim_plain line :
  Forall plain line → string_extract_verbatim line = (line, []).
Proof.
  induction 1 as [| c line Hc _ IH]; [done |]. cbn.
  rewrite (plain_not_ifs c Hc).
  apply plain_inv in Hc as (? & ? & ? & ? & ? & ? & ?).
  rewrite bool_decide_eq_false_2 by done. by rewrite IH.
Qed.

Lemma dequote_plain line : Forall plain line → dequote line = line.
Proof.
  induction 1 as [| c line Hc _ IH]; [done |]. cbn.
  apply plain_inv in Hc as (? & ? & ? & ? & ? & ? & ?).
  rewrite bool_decide_eq_false_2 by done. by rewrite IH.
Qed.

(** A line of plain characters is read as it is typed. *)
Lemma read_plain (line : list ascii) (rest : string) :
  Forall plain line →
  read (String.string_of_list_ascii line +:+ String newline rest)
  = Some (String.string_of_list_ascii line).
Proof.
  intros Hplain. unfold read. rewrite read_loop_plain by done. cbn [app].
  rewrite c_string_plain by done.
  destruct Hplain as [| c line Hc Hline]; [done |].
  cbn [skip_ifs_whitespace]. rewrite (plain_not_ifs c Hc).
  unfold get_word_from_string.
  rewrite string_extract_verbatim_plain by by constructor.
  cbn [tail skip_ifs_whitespace]. unfold dequote_string.
  rewrite dequote_plain by by constructor.
  case_bool_decide as Heq; [| done].
  injection Heq as -> ->. by apply plain_inv in Hc as (_&_&_&_&_&?&_).
Qed.

(** The commands the script starts, by the value [read] assigns. *)
Lemma destroy_sh_commands
    (args : list string) (stdin : string) (npm_status : Z) :
  commands (destroy_sh args stdin npm_status)
  = if decide (read stdin = Some ("destroy-" +:+ ENVIRONMENT args))
    then [destroy_command (ENVIRONMENT args)]
    else [].
Proof.
  unfold destroy_sh, commands.
  destruct (read stdin) as [CONFIRM |]; [| by rewrite decide_False].
  case_bool_decide as Hne.
  - rewrite decide_False by congruence. reflexivity.
  - subst CONFIRM. rewrite decide_True by done.
    by case_bool_decide.
Qed.

(** The phrase itself confirms; a variation in case cancels. *)
Example destroy_sh_exact_phrase :
  commands (destroy_sh ["staging"] ("destroy-staging" +:+ end_of_line) 0)
  = ["npm run cdk:destroy -- --all --context environment=staging --force"].
Proof. by vm_compute. Qed.

Example destroy_sh_case_variation :
  destroy_sh ["staging"] ("Destroy-Staging" +:+ end_of_line) 0
  = {| events := preamble "staging" ++ [echo "Destruction cancelled."];
       exit_status := 0 |}.
Proof. by vm_compute. Qed.



End Destroy.

(** ** Strings *)

Section Strings.

(** Strings with a common prefix differ exactly where their remainders
    do. *)
Lemma append_inj_prefix (p a b : string) : p +:+ a = p +:+ b → a = b.
Proof. induction p as [| c p IH]; simpl; [done |]. intros [=]. auto. Qed.

Lemma list_ascii_of_append (a b : string) :
  String.list_ascii_of_string (a +:+ b)
  = String.list_ascii_of_string a ++ String.list_ascii_of_string b.
Proof. induction a as [| c a IH]; simpl; [done |]. by rewrite IH. Qed.

Lemma list_ascii_of_string_inj (a b : string) :
  String.list_ascii_of_string a = String.list_ascii_of_string b → a = b.
Proof.
  intros H. rewrite <- (String.string_of_list_ascii_of_string a),
    <- (String.string_of_list_ascii_of_string b). by rewrite H.
Qed.

(** The reversed characters of [a +:+ s] start with those of [s]. *)
Lemma reverse_append (a s : string) :
  reverse (String.list_ascii_of_string (a +:+ s))
  = reverse (String.list_ascii_of_string s)
    ++ reverse (String.list_ascii_of_string a).
Proof. by rewrite list_ascii_of_append, reverse_app. Qed.

Lemma append_inj_suffix (a b s : string) : a +:+ s = b +:+ s → a = b.
Proof.
  intros H. apply (f_equal String.list_ascii_of_string) in H.
  rewrite !list_ascii_of_append in H. apply app_inv_tail in H.
  by apply list_ascii_of_string_inj.
Qed.

End Strings.

(** [a +:+ s1 = b +:+ s2] is absurd when the literals [s1] and [s2] end
    differently. *)
Ltac suffix_clash H :=
  apply (f_equal (λ s, reverse (String.list_ascii_of_string s))) in H;
  cbv beta in H; rewrite ?reverse_append in H; vm_compute reverse in H;
  simpl in H; congruence.

(** ** The Monitoring Stack: dashboard and alarm topic *)

Section MonitoringMore.

Import Environment MonitoringStack.

(** The rows the loop adds from index [i] on: one slice of two widgets per
    iteration, until [i] reaches the length or [steps] runs out. *)
Lemma add_rows_slices steps i ws t name d rest lw :
  add_rows steps i 1 ws
    {| children := t :: (name, Dashboard d) :: rest; lambdaWidgets := lw |}
  = (tt,
     {| children :=
          t :: (name, Dashboard {|
                  aws_cloudwatch.dashboardName := aws_cloudwatch.dashboardName d;
                  aws_cloudwatch.widgets :=
                    aws_cloudwatch.widgets d
                    ++ ((λ k, take 2 (drop (i + 2 * k) ws))
                          <$> seq 0 (steps `min` ((length ws - i + 1) / 2))) |})
          :: rest;
        lambdaWidgets := lw |}).
Proof.
  revert i d. induction steps as [| steps IH]; intros i d; cbn [add_rows].
  - cbn. destruct d. by rewrite app_nil_r.
  - case_decide as Hi.
    + unfold mbind, Synth_bind, addWidgets, update.
      cbn [children lambdaWidgets alter list_alter prod_map fst snd].
      rewrite IH. cbn [aws_cloudwatch.addWidgets aws_cloudwatch.dashboardName
                       aws_cloudwatch.widgets].
      replace (S steps `min` ((length ws - i + 1) / 2))%nat
        with (S (steps `min` ((length ws - (i + 2) + 1) / 2)))%nat.
      2:{ assert ((length ws - i + 1) / 2
                  = S ((length ws - (i + 2) + 1) / 2))%nat as ->;
            [| by rewrite Nat.succ_min_distr].
          destruct (decide (length ws - i = 1)%nat) as [Heq | ?].
          - rewrite Heq.
            replace (length ws - (i + 2))%nat with 0%nat by lia. done.
          - replace (length ws - i + 1)%nat
              with (1 * 2 + (length ws - (i + 2) + 1))%nat by lia.
            by rewrite Nat.div_add_l. }
      cbn [seq fmap list_fmap]. rewrite <- fmap_S_seq, <- list_fmap_compose.
      rewrite <- (assoc_L (++)). cbn [app].
      do 6 f_equal. do 2 f_equal. f_equal.
      * do 2 f_equal. lia.
      * apply list_fmap_ext. intros _ k _. cbn. do 2 f_equal. lia.
    + replace ((length ws - i + 1) / 2)%nat with 0%nat.
      2:{ replace (length ws - i)%nat with 0%nat by lia. done. }
      rewrite Nat.min_0_r. cbn. destruct d. by rewrite app_nil_r.
Qed.

Lemma subscribe_alarm_email_topic config T0 :
  subscribe_alarm_email config 0
    {| children := [("AlarmTopic", Topic T0)]; lambdaWidgets := [] |}
  = (tt,
     {| children :=
          [("AlarmTopic", Topic {|
              aws_sns.topicName := aws_sns.topicName T0;
              aws_sns.displayName := aws_sns.displayName T0;
              aws_sns.subscriptions :=
                aws_sns.subscriptions T0
                ++ match alarmEmail (monitoring config) with
                   | Some email =>
                       if Js.to_boolean email
                       then [aws_sns.EmailSubscription email] else []
                   | None => []
                   end |})];
        lambdaWidgets := [] |}).
Proof.
  unfold subscribe_alarm_email.
  destruct (alarmEmail (monitoring config)) as [email |];
    [destruct (Js.to_boolean email) |]; destruct T0; cbn;
    by rewrite ?app_nil_r.
Qed.

(** The stack object in full: the topic, the dashboard, a log group per
    function, three alarms per function and the two outputs, in this
    order. *)
Lemma make_children id config (fns : list aws_lambda.Function) :
  make id config fns
  = {| stack_id := id;
       alarmTopic := 0;
       dashboard := 1;
       node_children :=
         ("AlarmTopic", Topic {|
            aws_sns.topicName := stackPrefix config +:+ "-alarms";
            aws_sns.displayName :=
              "Readafull " +:+ tag (environment config) +:+ " Alarms";
            aws_sns.subscriptions :=
              match alarmEmail (monitoring config) with
              | Some email =>
                  if Js.to_boolean email
                  then [aws_sns.EmailSubscription email] else []
              | None => []
              end |})
         :: ("Dashboard", Dashboard {|
               aws_cloudwatch.dashboardName :=
                 stackPrefix config +:+ "-dashboard";
               aws_cloudwatch.widgets :=
                 ((λ k, take 2 (drop (2 * k) (widget <$> fns)))
                    <$> seq 0 ((length fns + 1) / 2))
                 ++ [[apiMetricsWidget config]] |})
         :: (log_group_child config <$> fns)
         ++ (fns ≫= alarm_children config 0)
         ++ [ ("AlarmTopicArn", CfnOutput {|
                 cdk.output_id := "AlarmTopicArn";
                 cdk.value := cdk.arn_of "AlarmTopic";
                 cdk.description := "SNS Topic ARN for Alarms";
                 cdk.exportName := stackPrefix config +:+ "-AlarmTopicArn" |});
              ("DashboardUrl", CfnOutput {|
                 cdk.output_id := "DashboardUrl";
                 cdk.value :=
                   cdk.template
                     ("https://console.aws.amazon.com/cloudwatch/home?region="
                        +:+ region config +:+ "#dashboards:name=")
                     "Dashboard";
                 cdk.description := "CloudWatch Dashboard URL";
                 cdk.exportName := stackPrefix config +:+ "-DashboardUrl" |}) ] |}.
Proof.
  unfold make, constructor.
  unfold mbind at 1, Synth_bind at 1, new at 1.
  cbn [children lambdaWidgets app length].
  unfold mbind at 1, Synth_bind at 1. rewrite subscribe_alarm_email_topic.
  unfold mbind at 1, Synth_bind at 1, new at 1.
  cbn [children lambdaWidgets app length].
  unfold mbind at 1, Synth_bind at 1. rewrite forEach_declare_log_group.
  unfold mbind at 1, Synth_bind at 1. rewrite forEach_declare_alarms.
  cbn [children lambdaWidgets app].
  unfold mbind at 1, Synth_bind at 1.
  unfold mbind at 1, Synth_bind at 1. rewrite add_rows_slices.
  unfold mbind at 1, Synth_bind at 1, addWidgets at 1, update at 1.
  cbn [children lambdaWidgets alter list_alter prod_map fst snd].
  unfold mbind at 1, Synth_bind at 1, new at 1.
  unfold mbind at 1, Synth_bind at 1, new at 1.
  cbn [children lambdaWidgets app].
  unfold mret, Synth_ret.
  cbn [fst snd aws_cloudwatch.addWidgets aws_cloudwatch.dashboardName
       aws_cloudwatch.widgets aws_sns.topicName aws_sns.displayName
       aws_sns.subscriptions app].
  rewrite length_fmap, Nat.sub_0_r, Nat.min_r.
  2:{ destruct (length fns) as [| n]; [done |].
      apply Nat.Div0.div_le_upper_bound; lia. }
  rewrite <- !(assoc_L (++)). reflexivity.
Qed.

(** Slices of two, taken in order, make up the list again. *)
Lemma concat_slices {A} (l : list A) :
  concat ((λ k, take 2 (drop (2 * k) l)) <$> seq 0 ((length l + 1) / 2)) = l.
Proof.
  assert (H : ∀ n (l : list A), (length l ≤ n)%nat →
    concat ((λ k, take 2 (drop (2 * k) l)) <$> seq 0 ((length l + 1) / 2))
    = l); [| by apply (H (length l))].
  clear l. induction n as [| n IH]; intros l Hl.
  - by destruct l; [| simpl in Hl; lia].
  - destruct l as [| a [| b l]]; [done | done |].
    cbn [length]. replace (S (S (length l)) + 1)%nat
      with (1 * 2 + (length l + 1))%nat by lia.
    rewrite Nat.div_add_l by done.
    change (1 + ?m)%nat with (S m). cbn [seq].
    rewrite fmap_cons, <- fmap_S_seq, <- list_fmap_compose.
    cbn [concat].
    change (take 2 (drop (2 * 0) (a :: b :: l))) with ([a; b] ++ take 0 l).
    rewrite take_0, app_nil_r. cbn [app]. do 2 f_equal.
    rewrite (list_fmap_ext _ (λ k, take 2 (drop (2 * k) l)) (seq 0 _)).
    + apply IH. simpl in Hl. lia.
    + intros _ k _. cbn [compose].
      replace (2 * S k)%nat with (S (S (2 * k))) by lia. done.
Qed.

(** X1: the dashboard of the stack: its rows are the widgets of the functions,
    two to a row in the order of the functions, followed by one row with
    the API Gateway widget. *)
Theorem dashboard_rows (id : string) (config : EnvironmentConfig)
    (fns : list aws_lambda.Function) :
  let stack := make id config fns in
  let n := length fns in
  ∃ d,
    node_children stack !! dashboard stack = Some ("Dashboard", Dashboard d)
    ∧ aws_cloudwatch.dashboardName d = stackPrefix config +:+ "-dashboard"
    ∧ length (aws_cloudwatch.widgets d) = ((n + 1) / 2 + 1)%nat
    ∧ (∀ k, (2 * k < n)%nat →
         aws_cloudwatch.widgets d !! k
         = Some (take 2 (drop (2 * k) (widget <$> fns))))
    ∧ aws_cloudwatch.widgets d !! ((n + 1) / 2)%nat
      = Some [apiMetricsWidget config]
    ∧ concat (aws_cloudwatch.widgets d)
      = (widget <$> fns) ++ [apiMetricsWidget config].
Proof.
  intros stack n. subst stack. rewrite make_children.
  eexists. split; [reflexivity |].
  cbn [aws_cloudwatch.dashboardName aws_cloudwatch.widgets].
  split; [reflexivity |].
  set (rows := (λ k, take 2 (drop (2 * k) (widget <$> fns)))
                 <$> seq 0 ((length fns + 1) / 2)).
  assert (Hlen : length rows = ((n + 1) / 2)%nat).
  { subst rows. by rewrite length_fmap, length_seq. }
  split_and!.
  - rewrite length_app, Hlen. simpl. done.
  - intros k Hk. rewrite lookup_app_l.
    2:{ rewrite Hlen. apply Nat.div_le_lower_bound; lia. }
    subst rows. rewrite list_lookup_fmap, lookup_seq_lt; [done |].
    apply Nat.div_le_lower_bound; lia.
  - rewrite lookup_app_r by lia. by rewrite Hlen, Nat.sub_diag.
  - rewrite concat_app. subst rows.
    rewrite <- (length_fmap widget fns), concat_slices. done.
Qed.

(** X2: the alarm topic notifies by e-mail exactly when the configuration has
    a non-empty [alarmEmail]; of the configurations the resolver returns
    only production has one. *)
Theorem alarm_topic_subscriptions (id s : string) (config : EnvironmentConfig)
    (fns : list aws_lambda.Function) :
  getEnvironmentConfig s = Js.own config →
  let stack := make id config fns in
  ∃ topic,
    node_children stack !! alarmTopic stack = Some ("AlarmTopic", Topic topic)
    ∧ aws_sns.subscriptions topic
      = match environment config with
        | Production => [aws_sns.EmailSubscription "alerts@readafull.com"]
        | Development | Staging => []
        end.
Proof.
  intros H stack. subst stack. rewrite make_children.
  eexists. split; [reflexivity |]. cbn [aws_sns.subscriptions].
  destruct (getEnvironmentConfig_own _ _ H)
    as [[-> ->] | [[-> ->] | (_ & _ & ->)]]; reflexivity.
Qed.

Lemma alarm_topic_subscriptions_witness :
  let stack := make "Readafull-Prod-Monitoring" production [] in
  ∃ topic,
    node_children stack !! alarmTopic stack = Some ("AlarmTopic", Topic topic)
    ∧ aws_sns.subscriptions topic
      = [aws_sns.EmailSubscription "alerts@readafull.com"].
Proof.
  apply (alarm_topic_subscriptions
           "Readafull-Prod-Monitoring" "production" production []).
  vm_compute; reflexivity.
Defined.

End MonitoringMore.

(** ** The Monitoring Stack: construct ids *)

Section MonitoringIds.

Import Environment MonitoringStack.

Lemma append_suffix_inj (s : string) : Inj (=) (=) (λ a, a +:+ s).
Proof. intros a b. apply append_inj_suffix. Qed.

Lemma log_group_child_ids config (fns : list aws_lambda.Function) :
  (log_group_child config <$> fns).*1
  = (λ i, i +:+ "LogGroup") <$> (aws_lambda.node_id <$> fns).
Proof. induction fns as [| fn fns IH]; [done |]. cbn. by f_equal. Qed.

Lemma alarm_children_ids config topic (fns : list aws_lambda.Function) :
  (fns ≫= alarm_children config topic).*1
  = (aws_lambda.node_id <$> fns)
      ≫= λ i, [i +:+ "ErrorAlarm"; i +:+ "ThrottleAlarm"; i +:+ "DurationAlarm"].
Proof.
  induction fns as [| fn fns IH]; [done |].
  rewrite fmap_cons, !bind_cons, fmap_app, IH. done.
Qed.

(** The ids of the three alarms of one function never meet those of
    another function. *)
Lemma alarm_ids_NoDup (ids : list string) :
  NoDup ids →
  NoDup (ids ≫= λ i,
           [i +:+ "ErrorAlarm"; i +:+ "ThrottleAlarm"; i +:+ "DurationAlarm"]).
Proof.
  apply NoDup_bind.
  - intros i j y _ _ Hi Hj.
    repeat (apply elem_of_cons in Hi as [-> | Hi]);
      try (by apply elem_of_nil in Hi);
      repeat (apply elem_of_cons in Hj as [Hj | Hj]);
      try (by apply elem_of_nil in Hj);
      first [ by apply append_inj_suffix in Hj | exfalso; suffix_clash Hj ].
  - intros i _. repeat (apply NoDup_cons; split); [.. | apply NoDup_nil_2];
      rewrite ?not_elem_of_cons; split_and?; try apply not_elem_of_nil;
      intros H; suffix_clash H.
Qed.

(** X3: construct ids must be unique within a stack.  Those of the Monitoring
    Stack are, exactly when the functions handed to it have pairwise
    different node ids. *)
Theorem construct_ids_unique (id : string) (config : EnvironmentConfig)
    (fns : list aws_lambda.Function) :
  NoDup (node_children (make id config fns)).*1
  ↔ NoDup (aws_lambda.node_id <$> fns).
Proof.
  rewrite make_children. cbn [node_children fmap list_fmap fst].
  change (list_fmap _ _ fst ?l) with (l.*1).
  rewrite !fmap_app, log_group_child_ids, alarm_children_ids.
  cbn [fmap list_fmap fst].
  set (ids := aws_lambda.node_id <$> fns).
  split.
  - intros H. apply NoDup_cons_1_2 in H. apply NoDup_cons_1_2 in H.
    apply NoDup_app in H as [H _]. by apply NoDup_fmap_1 in H.
  - intros Hids.
    assert (Hlog : ∀ x, x ∈ (λ i, i +:+ "LogGroup") <$> ids →
                        ∃ i, x = i +:+ "LogGroup").
    { intros x (i & -> & _)%list_elem_of_fmap. by exists i. }
    assert (Halarm : ∀ x,
      x ∈ ids ≫= (λ i, [i +:+ "ErrorAlarm"; i +:+ "ThrottleAlarm";
                         i +:+ "DurationAlarm"]) →
      ∃ i, x = i +:+ "ErrorAlarm" ∨ x = i +:+ "ThrottleAlarm"
           ∨ x = i +:+ "DurationAlarm").
    { intros x (i & Hx & _)%list_elem_of_bind. exists i.
      rewrite !elem_of_cons, elem_of_nil in Hx. tauto. }
    repeat first
      [ apply NoDup_cons; split
      | apply NoDup_app; split_and!
      | apply NoDup_nil_2
      | by apply (@NoDup_fmap_2 _ _ _ (append_suffix_inj "LogGroup"))
      | by apply alarm_ids_NoDup ].
    all: rewrite ?elem_of_cons, ?elem_of_app, ?elem_of_nil.
    all: try (intros x Hx).
    all: rewrite ?elem_of_cons, ?elem_of_app, ?elem_of_nil.
    all: intros Hbad.
    all: repeat match goal with
           | H : _ ∨ _ |- _ => destruct H as [H | H]
           | H : _ ∈ _ <$> _ |- _ => apply Hlog in H as [? H]
           | H : _ ∈ _ ≫= _ |- _ => apply Halarm in H as [? H]
           | H : _ ∈ _ :: _ |- _ => apply elem_of_cons in H as [H | H]
           | H : _ ∈ [] |- _ => apply elem_of_nil in H
           | H : False |- _ => destruct H
           end.
    all: subst; try discriminate.
    all: match goal with H : _ = _ |- _ => suffix_clash H end.
Qed.

End MonitoringIds.

(** ** The Monitoring Stack: thresholds and names *)

Section MonitoringNames.

Import Environment MonitoringStack.

(** For each timeout a function can have, from 0 to 900 seconds, the
    double [timeout * 1000 * 0.8] is the integer [800 * timeout]. *)
Lemma duration_threshold_table :
  Forall (λ t, (Js.number t * 1000 * 0.8)%float = Js.number (800 * t))
         (seqZ 0 901).
Proof.
  vm_compute (seqZ 0 901).
  repeat (apply Forall_cons; split; [reflexivity |]).
  apply Forall_nil_2.
Qed.

(** X4: the threshold of every duration alarm is 80% of the configured
    timeout in milliseconds, without rounding error: for each timeout a
    Lambda function can have, from 0 to 900 seconds, the binary64 product
    [timeout * 1000 * 0.8] is exactly the integer [800 * timeout]. *)
Theorem duration_threshold_exact (id : string) (config : EnvironmentConfig)
    (fns : list aws_lambda.Function) :
  0 ≤ timeout (lambda config) ≤ 900 →
  Forall (λ a, aws_cloudwatch.metricName (aws_cloudwatch.metric a) = "Duration" →
               aws_cloudwatch.threshold a
               = Js.number (800 * timeout (lambda config)))
         (alarms (make id config fns)).
Proof.
  intros Ht. rewrite alarms_make. apply Forall_bind, Forall_forall.
  intros fn _. repeat apply Forall_cons_2; try apply Forall_nil_2;
    cbn; try discriminate.
  intros _.
  pose proof duration_threshold_table as Htable.
  rewrite Forall_forall in Htable. apply Htable, elem_of_seqZ. lia.
Qed.

Lemma duration_threshold_exact_witness :
  0 ≤ timeout (lambda staging) ≤ 900
  ∧ Forall (λ a, aws_cloudwatch.metricName (aws_cloudwatch.metric a)
                 = "Duration" →
                 aws_cloudwatch.threshold a = 48000%float)
           (alarms (make "Readafull-Staging-Monitoring" staging
                      [ApiStack.translationFunction ApiStack.example])).
Proof.
  assert (H : 0 ≤ timeout (lambda staging) ≤ 900) by (simpl; lia).
  split; [exact H |].
  exact (duration_threshold_exact "Readafull-Staging-Monitoring" staging
           [ApiStack.translationFunction ApiStack.example] H).
Defined.

(** A list built from the elements of [l] has no duplicates only if [l]
    has none, when every element contributes something. *)
Lemma NoDup_bind_inv {A B} (f : A → list B) (g : A → B) (l : list A) :
  (∀ x, g x ∈ f x) → NoDup (l ≫= f) → NoDup l.
Proof.
  intros Hg. induction l as [| x l IH]; [constructor |].
  rewrite bind_cons, NoDup_app. intros (_ & Hdisj & Hl).
  apply NoDup_cons. split; [| by apply IH].
  intros Hx. apply (Hdisj (g x) (Hg x)).
  apply list_elem_of_bind. eauto.
Qed.

Lemma alarm_names config topic (fns : list aws_lambda.Function) :
  aws_cloudwatch.alarmName <$>
    (fns ≫= λ fn, [ routed topic (errorAlarm_props config fn);
                     routed topic (throttleAlarm_props config fn);
                     routed topic (durationAlarm_props config fn) ])
  = (aws_lambda.functionName <$> fns)
      ≫= λ f, [ stackPrefix config +:+ "-" +:+ f +:+ "-errors";
                stackPrefix config +:+ "-" +:+ f +:+ "-throttles";
                stackPrefix config +:+ "-" +:+ f +:+ "-duration" ].
Proof.
  induction fns as [| fn fns IH]; [done |].
  rewrite fmap_cons, !bind_cons, fmap_app, IH. done.
Qed.

(** X5: alarm names and log group names are unique in an account and region.
    Those of the Monitoring Stack are pairwise different exactly when the
    functions handed to it have pairwise different function names. *)
Theorem monitoring_names_unique (id : string) (config : EnvironmentConfig)
    (fns : list aws_lambda.Function) :
  let stack := make id config fns in
  (NoDup (aws_cloudwatch.alarmName <$> alarms stack)
   ↔ NoDup (aws_lambda.functionName <$> fns))
  ∧ (NoDup (aws_logs.logGroupName <$> log_groups stack)
     ↔ NoDup (aws_lambda.functionName <$> fns)).
Proof.
  intros stack. subst stack. rewrite alarms_make, log_groups_make. split.
  - rewrite alarm_names. set (names := aws_lambda.functionName <$> fns).
    split.
    + apply (NoDup_bind_inv _
               (λ f, stackPrefix config +:+ "-" +:+ f +:+ "-errors")).
      intros f. apply list_elem_of_here.
    + apply NoDup_bind.
      * intros f1 f2 y _ _ H1 H2.
        repeat (apply elem_of_cons in H1 as [-> | H1]);
          try (by apply elem_of_nil in H1);
          repeat (apply elem_of_cons in H2 as [H2 | H2]);
          try (by apply elem_of_nil in H2);
          do 2 apply append_inj_prefix in H2;
          first [ by apply append_inj_suffix in H2
                | exfalso; suffix_clash H2 ].
      * intros f _.
        repeat (apply NoDup_cons; split); [.. | apply NoDup_nil_2];
          rewrite ?not_elem_of_cons; split_and?;
          try apply not_elem_of_nil;
          intros H; do 2 apply append_inj_prefix in H; suffix_clash H.
  - rewrite <- list_fmap_compose.
    change (aws_logs.logGroupName ∘ LogGroup_props config)
      with ((λ f, "/aws/lambda/" +:+ f) ∘ aws_lambda.functionName).
    rewrite list_fmap_compose. split; [apply NoDup_fmap_1 |].
    apply NoDup_fmap_2. intros a b. apply append_inj_prefix.
Qed.

End MonitoringNames.

(** ** The resolver and the configurations *)

Section ResolverMore.

Import Environment.

(** The resolver hands back either an inherited member, for the names of
    [Object.prototype], or a configuration record, for any other string. *)
Lemma getEnvironmentConfig_cases (s : string) :
  (s ∈ Js.Object_prototype ∧ getEnvironmentConfig s = Js.inherited s)
  ∨ ((s ∉ Js.Object_prototype)
     ∧ ∃ config, getEnvironmentConfig s = Js.own config).
Proof.
  destruct (decide (s ∈ Js.Object_prototype)) as [Hin | Hout].
  - left. split; [done |]. by apply getEnvironmentConfig_prototype.
  - right. split; [done |].
    unfold getEnvironmentConfig. rewrite configs_development.
    unfold Js.or_string, Js.to_boolean, Js.string_to_boolean.
    case_bool_decide; simpl; [rewrite configs_development; eauto |].
    unfold Js.get. rewrite configs_lookup.
    repeat case_decide; simpl; eauto; contradiction.
Qed.

(** X6: every string that is neither a supported selector nor the name of an
    inherited member, the empty string among them, resolves to the
    development configuration. *)
Theorem getEnvironmentConfig_unsupported (s : string) :
  s ∉ ["development"; "staging"; "production"] →
  s ∉ Js.Object_prototype →
  getEnvironmentConfig s = Js.own development
  ∧ getEnvironmentConfig s = getEnvironmentConfig "".
Proof.
  intros Hs Hproto. rewrite getEnvironmentConfig_fallback by done.
  split; [done | by vm_compute].
Qed.

Lemma getEnvironmentConfig_unsupported_witness :
  ("qa" ∉ ["development"; "staging"; "production"])
  ∧ ("qa" ∉ Js.Object_prototype)
  ∧ getEnvironmentConfig "qa" = Js.own development.
Proof.
  assert (H1 : "qa" ∉ ["development"; "staging"; "production"]).
  { rewrite !not_elem_of_cons. split_and!; try done. apply not_elem_of_nil. }
  assert (H2 : "qa" ∉ Js.Object_prototype).
  { unfold Js.Object_prototype. rewrite !not_elem_of_cons.
    split_and!; try done. apply not_elem_of_nil. }
  split_and!; [exact H1 | exact H2 |].
  exact (proj1 (getEnvironmentConfig_unsupported "qa" H1 H2)).
Defined.

(** X7: the resolver never returns [undefined]; it returns a configuration
    record for every string except the names of the members a plain object
    inherits, for which it returns the inherited member. *)
Theorem getEnvironmentConfig_total (s : string) :
  getEnvironmentConfig s ≠ Js.undefined
  ∧ ((∃ config, getEnvironmentConfig s = Js.own config)
     ↔ s ∉ Js.Object_prototype)
  ∧ (getEnvironmentConfig s = Js.inherited s ↔ s ∈ Js.Object_prototype).
Proof.
  destruct (getEnvironmentConfig_cases s) as [[Hin ->] | [Hout [c ->]]].
  - split_and!; [done | | done].
    split; [by intros [? [=]] | done].
  - split_and!; [done | | ].
    + split; [done | eauto].
    + split; [done | by intros ?].
Qed.

(** X8: resolving the [environment] tag of a configuration the resolver
    returned gives that configuration again. *)
Theorem getEnvironmentConfig_tag (s : string) (config : EnvironmentConfig) :
  getEnvironmentConfig s = Js.own config →
  getEnvironmentConfig (tag (environment config)) = Js.own config.
Proof.
  intros H.
  destruct (getEnvironmentConfig_own _ _ H)
    as [[-> ->] | [[-> ->] | (_ & _ & ->)]]; by vm_compute.
Qed.

Lemma getEnvironmentConfig_tag_witness :
  getEnvironmentConfig "qa" = Js.own development
  ∧ getEnvironmentConfig (tag (environment development)) = Js.own development.
Proof.
  assert (H : getEnvironmentConfig "qa" = Js.own development)
    by (vm_compute; reflexivity).
  split; [exact H | exact (getEnvironmentConfig_tag "qa" development H)].
Defined.

(** X9: two configurations the resolver returns share no resource name unless
    they are the same configuration: stack prefix, user pool name, table
    name and bucket name each determine the environment. *)
Theorem resource_names_separate_environments
    (s1 s2 : string) (c1 c2 : EnvironmentConfig) :
  getEnvironmentConfig s1 = Js.own c1 →
  getEnvironmentConfig s2 = Js.own c2 →
  stackPrefix c1 = stackPrefix c2
  ∨ userPoolName (cognito c1) = userPoolName (cognito c2)
  ∨ tableName (dynamodb c1) = tableName (dynamodb c2)
  ∨ audioBucketName (s3 c1) = audioBucketName (s3 c2) →
  c1 = c2.
Proof.
  intros H1 H2.
  destruct (getEnvironmentConfig_own _ _ H1)
    as [[_ ->] | [[_ ->] | (_ & _ & ->)]];
    destruct (getEnvironmentConfig_own _ _ H2)
      as [[_ ->] | [[_ ->] | (_ & _ & ->)]];
    try reflexivity; simpl; intros [? | [? | [? | ?]]]; discriminate.
Qed.

Lemma resource_names_separate_environments_witness :
  getEnvironmentConfig "" = Js.own development
  ∧ getEnvironmentConfig "development" = Js.own development
  ∧ development = development.
Proof.
  assert (H1 : getEnvironmentConfig "" = Js.own development)
    by (vm_compute; reflexivity).
  assert (H2 : getEnvironmentConfig "development" = Js.own development)
    by (vm_compute; reflexivity).
  split_and!; [exact H1 | exact H2 |].
  exact (resource_names_separate_environments "" "development" _ _ H1 H2
           (or_introl eq_refl)).
Defined.

End ResolverMore.

Section StorageMore.

Import Environment.

(** X10: for every configuration the resolver returns, no lifecycle rule of the
    audio bucket expires objects before it moves them to the other storage
    class; in development both happen on the same day, in staging and
    production the expiration comes later. *)
Theorem lifecycle_expiration_after_transition
    (id s : string) (config : EnvironmentConfig) :
  getEnvironmentConfig s = Js.own config →
  ∀ rule transition e t,
    rule ∈ aws_s3.lifecycleRules
             (StorageStack.audioBucket (StorageStack.new id config)) →
    transition ∈ aws_s3.transitions rule →
    aws_s3.expiration rule = cdk.days e →
    aws_s3.transitionAfter transition = cdk.days t →
    t ≤ e ∧ (t = e ↔ environment config = Development).
Proof.
  intros H rule transition e t Hrule Htr He Ht.
  cbn in Hrule. apply list_elem_of_singleton in Hrule as ->.
  cbn in Htr, He. apply list_elem_of_singleton in Htr as ->.
  cbn in Ht. injection He as <-. injection Ht as <-.
  destruct (getEnvironmentConfig_own _ _ H)
    as [[_ ->] | [[_ ->] | (_ & _ & ->)]]; cbn; split; try lia;
    split; (done || lia).
Qed.

Lemma lifecycle_expiration_after_transition_witness :
  30 ≤ 60 ∧ (30 = 60 ↔ environment staging = Development).
Proof.
  eapply (lifecycle_expiration_after_transition
            "Readafull-Staging-Storage" "staging" staging);
    [ vm_compute; reflexivity
    | apply list_elem_of_here
    | apply list_elem_of_here
    | reflexivity
    | reflexivity ].
Defined.

End StorageMore.

(** ** The Auth Stack, the exports and the entry point *)

Section AuthAndExports.

Import Environment.

(** X11: for every configuration the resolver returns, the user pool is
    retained when its stack is deleted exactly when the environment is
    production, like the table and the bucket of the Storage Stack. *)
Theorem user_pool_removal_policy (id s : string) (config : EnvironmentConfig) :
  getEnvironmentConfig s = Js.own config →
  let pool := AuthStack.userPool (AuthStack.new id config) in
  (aws_cognito.removalPolicy pool = cdk.RETAIN ↔ s = "production")
  ∧ (aws_cognito.removalPolicy pool = cdk.DESTROY ↔ s ≠ "production")
  ∧ aws_cognito.removalPolicy pool
    = aws_dynamodb.removalPolicy
        (StorageStack.mainTable (StorageStack.new id config)).
Proof.
  intros H pool. subst pool.
  destruct (getEnvironmentConfig_own _ _ H)
    as [[-> ->] | [[-> ->] | (Hprod & _ & ->)]]; cbn; split_and!;
    try done; split; done.
Qed.

Lemma user_pool_removal_policy_witness :
  getEnvironmentConfig "qa" = Js.own development
  ∧ aws_cognito.removalPolicy
      (AuthStack.userPool (AuthStack.new "Readafull-Dev-Auth" development))
    = cdk.DESTROY.
Proof.
  assert (H : getEnvironmentConfig "qa" = Js.own development)
    by (vm_compute; reflexivity).
  split; [exact H |].
  apply (proj1 (proj2 (user_pool_removal_policy "Readafull-Dev-Auth" "qa"
                         development H))).
  discriminate.
Defined.

Lemma exports_of_monitoring id config (fns : list aws_lambda.Function) :
  Exports.of_monitoring (MonitoringStack.make id config fns)
  = [ stackPrefix config +:+ "-AlarmTopicArn";
      stackPrefix config +:+ "-DashboardUrl" ].
Proof.
  unfold Exports.of_monitoring. rewrite make_children.
  cbn [MonitoringStack.node_children omap list_omap snd].
  rewrite !omap_app.
  assert (Hlog : omap (λ child : string * MonitoringStack.Construct,
                         match child.2 with
                         | MonitoringStack.CfnOutput o =>
                             Some (cdk.exportName o)
                         | _ => None
                         end)
                   (MonitoringStack.log_group_child config <$> fns) = [])
    by by induction fns.
  assert (Halarm : omap (λ child : string * MonitoringStack.Construct,
                           match child.2 with
                           | MonitoringStack.CfnOutput o =>
                               Some (cdk.exportName o)
                           | _ => None
                           end)
                     (fns ≫= MonitoringStack.alarm_children config 0) = []).
  { induction fns as [| fn fns IH]; [done |].
    by rewrite bind_cons, omap_app, IH. }
  rewrite Hlog, Halarm. reflexivity.
Qed.

(** X12: export names are unique in an account and region.  Whatever the
    configuration and the functions monitored, the nine outputs of the
    Auth, Storage and Monitoring stacks of one app have nine different
    export names, each starting with the stack prefix. *)
Theorem export_names_unique (config : EnvironmentConfig)
    (fns : list aws_lambda.Function) :
  NoDup (Exports.all config fns)
  ∧ length (Exports.all config fns) = 9%nat
  ∧ Forall (λ name, ∃ suffix, name = stackPrefix config +:+ suffix)
           (Exports.all config fns).
Proof.
  unfold Exports.all. rewrite exports_of_monitoring.
  cbn [AuthStack.outputs AuthStack.new StorageStack.outputs StorageStack.new
       fmap list_fmap AuthStack.exportName cdk.exportName app].
  split_and!; [| done | repeat constructor; eauto].
  repeat (apply NoDup_cons; split); [.. | apply NoDup_nil_2];
    rewrite ?not_elem_of_cons; split_and?; try apply not_elem_of_nil;
    intros H; apply append_inj_prefix in H; discriminate.
Qed.

End AuthAndExports.

Section EntryPointMore.

Import Environment Readafull.

Lemma getEnvironmentConfig_development :
  getEnvironmentConfig "development" = Js.own development.
Proof. by vm_compute. Qed.

(** The selected environment is the context value, or ["development"]
    when there is none or it is empty. *)
Lemma main_selected (api : ApiStack.t) (context : option string) :
  main api context
  = match getEnvironmentConfig
            (match context with
             | Some s => if decide (s = "") then "development" else s
             | None => "development"
             end) with
    | Js.own config => Some (synth api config []).2
    | _ => None
    end.
Proof.
  unfold main, Js.or_string, Js.to_boolean, Js.string_to_boolean.
  destruct context as [s |]; [| by destruct (getEnvironmentConfig _)].
  case_bool_decide; case_decide; try done; simpl;
    by destruct (getEnvironmentConfig _).
Qed.

(** X13: an unknown selector is not an error: for a context value that is
    neither a supported selector nor the name of an inherited member, and
    when the context has no value, the entry point synthesizes the
    development stacks. *)
Theorem main_unknown_selector (api : ApiStack.t) (s : string) :
  s ∉ ["development"; "staging"; "production"] →
  s ∉ Js.Object_prototype →
  main api (Some s) = Some (synth api development []).2
  ∧ main api (Some s) = main api None
  ∧ main api (Some s) = main api (Some "development").
Proof.
  intros Hs Hproto. rewrite !main_selected.
  rewrite (decide_False (P := "development" = "")) by done.
  rewrite getEnvironmentConfig_development.
  case_decide.
  - by rewrite getEnvironmentConfig_development.
  - by rewrite getEnvironmentConfig_fallback.
Qed.

Lemma main_unknown_selector_witness :
  ("qa" ∉ ["development"; "staging"; "production"])
  ∧ ("qa" ∉ Js.Object_prototype)
  ∧ main ApiStack.example (Some "qa") = main ApiStack.example None.
Proof.
  assert (H1 : "qa" ∉ ["development"; "staging"; "production"]).
  { rewrite !not_elem_of_cons. split_and!; try done. apply not_elem_of_nil. }
  assert (H2 : "qa" ∉ Js.Object_prototype).
  { unfold Js.Object_prototype. rewrite !not_elem_of_cons.
    split_and!; try done. apply not_elem_of_nil. }
  split_and!; [exact H1 | exact H2 |].
  exact (proj1 (proj2 (main_unknown_selector ApiStack.example "qa" H1 H2))).
Defined.

(** X14: nothing is synthesized exactly when the context value is the name of
    a member that [configs] inherits. *)
Theorem main_inherited_selector (api : ApiStack.t) (context : option string) :
  main api context = None
  ↔ ∃ s, context = Some s ∧ s ∈ Js.Object_prototype.
Proof.
  rewrite main_selected. destruct context as [s |].
  2:{ rewrite getEnvironmentConfig_development.
      split; [done | by intros (? & [=] & _)]. }
  assert (Hempty : "" ∉ Js.Object_prototype).
  { unfold Js.Object_prototype. rewrite !not_elem_of_cons.
    split_and!; try done. apply not_elem_of_nil. }
  case_decide as Hs.
  - subst s. rewrite getEnvironmentConfig_development.
    split; [done |]. by intros (s & [= <-] & Hin).
  - destruct (getEnvironmentConfig_cases s) as [[Hin ->] | [Hout [c ->]]].
    + split; [eauto | done].
    + split; [done |]. by intros (s' & [= <-] & Hin).
Qed.

End EntryPointMore.

(** ** The entry point: stack ids and deployment order *)

Section EntryPointOrder.

Import Environment Readafull.

(** The dependencies the entry point declares. *)
Lemma synth_edges (api : ApiStack.t) (config : EnvironmentConfig) (i j : nat) :
  depends_on (synth api config []).2 i j
  ↔ ((i = 2 ∧ j = 0) ∨ (i = 2 ∧ j = 1) ∨ (i = 3 ∧ j = 2))%nat.
Proof.
  destruct (synth_run api config) as (auth & storage & monitoring & ->).
  unfold depends_on. split.
  - intros (s & Hs & Hj).
    destruct i as [| [| [| [| i]]]]; simplify_eq/=;
      set_unfold in Hj; intuition lia.
  - intros [[-> ->] | [[-> ->] | [-> ->]]]; eexists;
      (split; [reflexivity |]); simpl; set_unfold; tauto.
Qed.

Lemma main_synth (api : ApiStack.t) (context : option string) (app : App) :
  main api context = Some app → ∃ config, app = (synth api config []).2.
Proof.
  rewrite main_selected.
  destruct (getEnvironmentConfig _) as [| config | name]; [done | | done].
  intros [= <-]. eauto.
Qed.

(** X15: the ids of the four stacks of a synthesized app are pairwise
    different, whatever the stack prefix. *)
Theorem stack_ids_unique
    (api : ApiStack.t) (context : option string) (app : App) :
  main api context = Some app → NoDup (id <$> app).
Proof.
  intros [config ->]%main_synth.
  destruct (synth_run api config) as (auth & storage & monitoring & ->).
  cbn [fmap list_fmap id].
  repeat (apply NoDup_cons; split); [.. | apply NoDup_nil_2];
    rewrite ?not_elem_of_cons; split_and?; try apply not_elem_of_nil;
    intros H; apply append_inj_prefix in H; discriminate.
Qed.

Lemma stack_ids_unique_witness :
  main ApiStack.example None = Some (synth ApiStack.example development []).2
  ∧ NoDup (id <$> (synth ApiStack.example development []).2).
Proof.
  assert (H : main ApiStack.example None
              = Some (synth ApiStack.example development []).2)
    by (vm_compute; reflexivity).
  split; [exact H | exact (stack_ids_unique ApiStack.example None _ H)].
Defined.

(** X16: what has to be deployed before what: in a synthesized app the Api
    stack needs, directly or through other stacks, exactly Auth and
    Storage; the Monitoring stack needs all three others; Auth and Storage
    need nothing. *)
Theorem deployment_order
    (api : ApiStack.t) (context : option string) (app : App) :
  main api context = Some app →
  ∀ i j, tc (depends_on app) i j
         ↔ ((i = 2 ∧ j < 2) ∨ (i = 3 ∧ j < 3))%nat.
Proof.
  intros [config ->]%main_synth i j. split.
  - induction 1 as [i j Hij | i k j Hik _ IH].
    + apply synth_edges in Hij. lia.
    + apply synth_edges in Hik. lia.
  - assert (E20 : depends_on (synth api config []).2 2%nat 0%nat)
      by (apply synth_edges; lia).
    assert (E21 : depends_on (synth api config []).2 2%nat 1%nat)
      by (apply synth_edges; lia).
    assert (E32 : depends_on (synth api config []).2 3%nat 2%nat)
      by (apply synth_edges; lia).
    intros [[-> Hj] | [-> Hj]].
    + destruct j as [| [| j]]; [by apply tc_once .. | lia].
    + destruct j as [| [| [| j]]]; [| | | lia].
      * eapply tc_l; [exact E32 | by apply tc_once].
      * eapply tc_l; [exact E32 | by apply tc_once].
      * by apply tc_once.
Qed.

Lemma deployment_order_witness :
  main ApiStack.example (Some "production")
  = Some (synth ApiStack.example production []).2
  ∧ tc (depends_on (synth ApiStack.example production []).2) 3%nat 0%nat.
Proof.
  assert (H : main ApiStack.example (Some "production")
              = Some (synth ApiStack.example production []).2)
    by (vm_compute; reflexivity).
  split; [exact H |].
  apply (deployment_order ApiStack.example (Some "production") _ H).
  right. split; [reflexivity | lia].
Defined.

End EntryPointOrder.

(** ** The destroy script: what [read] consumes *)

Section ReadMore.

Import DestroyScript.

(** Once the reading loop has found the end of the line, what follows in
    the input plays no part. *)
Lemma read_loop_more (stdin more : string) pass_next acc bytes :
  read_loop stdin pass_next acc = Some bytes →
  read_loop (stdin +:+ more) pass_next acc = Some bytes.
Proof.
  revert pass_next acc.
  induction stdin as [| c stdin IH]; intros pass_next acc; [done |].
  simpl.
  destruct pass_next; repeat case_bool_decide; simpl; auto; congruence.
Qed.

(** X17: the script reads one line: when [read] succeeds, input after that line
    changes nothing. *)
Theorem destroy_reads_one_line
    (args : list string) (stdin more : string) (npm_status : Z) :
  is_Some (read stdin) →
  read (stdin +:+ more) = read stdin
  ∧ destroy_sh args (stdin +:+ more) npm_status
    = destroy_sh args stdin npm_status.
Proof.
  intros [value Hvalue].
  assert (H : read (stdin +:+ more) = read stdin).
  { unfold read in *.
    destruct (read_loop stdin false []) as [bytes |] eqn:Hloop; [| done].
    by rewrite (read_loop_more _ more _ _ _ Hloop). }
  split; [done |]. unfold destroy_sh. by rewrite H.
Qed.

Lemma destroy_reads_one_line_witness :
  is_Some (read ("no" +:+ end_of_line))
  ∧ destroy_sh ["staging"] (("no" +:+ end_of_line)
                            +:+ "destroy-staging" +:+ end_of_line) 0
    = destroy_sh ["staging"] ("no" +:+ end_of_line) 0.
Proof.
  assert (H : is_Some (read ("no" +:+ end_of_line)))
    by (vm_compute; eauto).
  split; [exact H |].
  exact (proj2 (destroy_reads_one_line ["staging"] ("no" +:+ end_of_line)
                  ("destroy-staging" +:+ end_of_line) 0 H)).
Defined.

(** Without a newline in the input the reading loop finds no line. *)
Lemma read_loop_no_newline (stdin : string) pass_next acc :
  newline ∉ String.list_ascii_of_string stdin →
  read_loop stdin pass_next acc = None.
Proof.
  revert pass_next acc.
  induction stdin as [| c stdin IH]; intros pass_next acc; [done |].
  simpl. intros [Hc Hrest]%not_elem_of_cons.
  destruct pass_next; repeat case_bool_decide; simpl; auto; congruence.
Qed.

(** X18: when the input ends before a newline, as when standard input is closed
    or empty, the script stops after the prompt with status 1, whatever
    was typed: nothing is destroyed and no cancellation is reported. *)
Theorem destroy_end_of_input
    (args : list string) (stdin : string) (npm_status : Z) :
  newline ∉ String.list_ascii_of_string stdin →
  destroy_sh args stdin npm_status
  = {| events := preamble (ENVIRONMENT args); exit_status := 1 |}.
Proof.
  intros H. unfold destroy_sh, read.
  by rewrite read_loop_no_newline.
Qed.

Lemma destroy_end_of_input_witness :
  (newline ∉ String.list_ascii_of_string "destroy-development")
  ∧ commands (destroy_sh [] "destroy-development" 0) = [].
Proof.
  assert (H : newline ∉ String.list_ascii_of_string "destroy-development").
  { cbn. rewrite !not_elem_of_cons. split_and!; try done.
    apply not_elem_of_nil. }
  split; [exact H |].
  by rewrite (destroy_end_of_input [] "destroy-development" 0 H).
Defined.

End ReadMore.

(** ** The destroy script: blanks and continuation lines *)

Section ReadBlanks.

Import DestroyScript.

(** Bytes the reading loop stores as they come. *)
Lemma read_loop_literal (l : list ascii) (rest : string) (acc : list ascii) :
  Forall (λ c, c ∉ [backslash; newline; NUL; CTLESC; CTLNUL]) l →
  read_loop (String.string_of_list_ascii l +:+ rest) false acc
  = read_loop rest false (acc ++ l).
Proof.
  intros Hl. revert acc.
  induction Hl as [| c l Hc _ IH]; intros acc; simpl.
  - by rewrite app_nil_r.
  - rewrite !not_elem_of_cons in Hc. destruct Hc as (? & ? & ? & ? & ? & _).
    rewrite !bool_decide_eq_false_2 by done. simpl.
    rewrite IH. by rewrite <- (assoc_L (++)).
Qed.

Lemma blank_literal (b : list ascii) :
  Forall (λ c, c = " "%char ∨ c = tab) b →
  Forall (λ c, c ∉ [backslash; newline; NUL; CTLESC; CTLNUL]) b.
Proof.
  intros H. eapply Forall_impl; [exact H |].
  intros c [-> | ->]; rewrite !not_elem_of_cons;
    split_and!; try done; apply not_elem_of_nil.
Qed.

Lemma plain_literal (w : list ascii) :
  Forall plain w →
  Forall (λ c, c ∉ [backslash; newline; NUL; CTLESC; CTLNUL]) w.
Proof.
  intros H. eapply Forall_impl; [exact H |].
  intros c (? & ? & ? & ? & ? & ? & ?)%plain_inv.
  rewrite !not_elem_of_cons. split_and!; try done. apply not_elem_of_nil.
Qed.

Lemma c_string_literal (l : list ascii) :
  Forall (λ c, c ∉ [backslash; newline; NUL; CTLESC; CTLNUL]) l →
  c_string l = l.
Proof.
  induction 1 as [| c l Hc _ IH]; [done |]. simpl.
  rewrite !not_elem_of_cons in Hc. destruct Hc as (_ & _ & ? & _).
  rewrite bool_decide_eq_false_2 by done. by rewrite IH.
Qed.

Lemma blank_ifs c : c = " "%char ∨ c = tab → ifs c = true.
Proof. by intros [-> | ->]. Qed.

Lemma skip_blanks (b l : list ascii) :
  Forall (λ c, c = " "%char ∨ c = tab) b →
  skip_ifs_whitespace (b ++ l) = skip_ifs_whitespace l.
Proof.
  induction 1 as [| c b Hc _ IH]; [done |]. simpl.
  by rewrite (blank_ifs c Hc).
Qed.

Lemma string_extract_verbatim_word (w b : list ascii) :
  Forall plain w →
  Forall (λ c, c = " "%char ∨ c = tab) b →
  string_extract_verbatim (w ++ b) = (w, b).
Proof.
  intros Hw Hb. induction Hw as [| c w Hc _ IH]; simpl.
  - destruct Hb as [| c b Hc _]; [done |]. simpl.
    rewrite (blank_ifs c Hc).
    rewrite bool_decide_eq_false_2; [done |]. by destruct Hc as [-> | ->].
  - rewrite (plain_not_ifs c Hc).
    apply plain_inv in Hc as (? & ? & ? & ? & ? & ? & ?).
    rewrite bool_decide_eq_false_2 by done. by rewrite IH.
Qed.

(** Blanks before and after a word of plain characters are not part of
    the value [read] assigns. *)
Lemma read_padded (b1 w b2 : list ascii) (rest : string) :
  Forall (λ c, c = " "%char ∨ c = tab) b1 →
  Forall (λ c, c = " "%char ∨ c = tab) b2 →
  Forall plain w →
  read (String.string_of_list_ascii (b1 ++ w ++ b2) +:+ String newline rest)
  = Some (String.string_of_list_ascii w).
Proof.
  intros Hb1 Hb2 Hw. unfold read.
  rewrite read_loop_literal.
  2:{ rewrite !Forall_app.
      split_and!; eauto using blank_literal, plain_literal. }
  simpl. rewrite c_string_literal.
  2:{ rewrite !Forall_app.
      split_and!; eauto using blank_literal, plain_literal. }
  rewrite skip_blanks by done.
  destruct Hw as [| c w Hc Hw].
  { simpl. rewrite <- (app_nil_r b2), skip_blanks by done. done. }
  cbn [app skip_ifs_whitespace]. rewrite (plain_not_ifs c Hc).
  unfold get_word_from_string.
  change (c :: w ++ b2) with ((c :: w) ++ b2).
  rewrite (string_extract_verbatim_word (c :: w) b2);
    [| by constructor | done].
  assert (Hrest : skip_ifs_whitespace (tail b2) = []).
  { destruct Hb2 as [| ? b2 _ Hb2]; [done |]. simpl.
    rewrite <- (app_nil_r b2). by rewrite skip_blanks. }
  rewrite Hrest. unfold dequote_string.
  rewrite dequote_plain by by constructor.
  case_bool_decide as Heq; [| done].
  injection Heq as -> ->. by apply plain_inv in Hc as (_&_&_&_&_&?&_).
Qed.

(** X19: the phrase confirms also when blanks are typed before or after it,
    for an environment name of plain characters, which are ASCII. *)
Theorem destroy_padded_phrase (args : list string) (b1 b2 : list ascii)
    (rest : string) (npm_status : Z) :
  let phrase := "destroy-" +:+ ENVIRONMENT args in
  Forall (λ c, c = " "%char ∨ c = tab) b1 →
  Forall (λ c, c = " "%char ∨ c = tab) b2 →
  Forall plain (String.list_ascii_of_string (ENVIRONMENT args)) →
  commands
    (destroy_sh args
       (String.string_of_list_ascii
          (b1 ++ String.list_ascii_of_string phrase ++ b2)
        +:+ String newline rest)
       npm_status)
  = [destroy_command (ENVIRONMENT args)].
Proof.
  intros phrase Hb1 Hb2 Henv. rewrite destroy_sh_commands.
  rewrite read_padded; try done.
  - rewrite String.string_of_list_ascii_of_string. by rewrite decide_True.
  - subst phrase. cbn.
    repeat (apply Forall_cons; split;
            [unfold plain; rewrite !not_elem_of_cons; split_and!;
             try done; first [apply not_elem_of_nil | by apply Nat.ltb_lt] |]).
    done.
Qed.

Lemma destroy_padded_phrase_witness :
  Forall (λ c, c = " "%char ∨ c = tab) [tab]
  ∧ Forall (λ c, c = " "%char ∨ c = tab) [" "%char; " "%char]
  ∧ Forall plain (String.list_ascii_of_string (ENVIRONMENT ["staging"]))
  ∧ commands
      (destroy_sh ["staging"]
         (String.string_of_list_ascii
            ([tab] ++ String.list_ascii_of_string "destroy-staging"
               ++ [" "%char; " "%char])
          +:+ end_of_line) 0)
    = [destroy_command "staging"].
Proof.
  assert (H1 : Forall (λ c, c = " "%char ∨ c = tab) [tab])
    by (repeat constructor; by right).
  assert (H2 : Forall (λ c, c = " "%char ∨ c = tab) [" "%char; " "%char])
    by (repeat constructor; by left).
  assert (H3 : Forall plain
                 (String.list_ascii_of_string (ENVIRONMENT ["staging"]))).
  { cbn. repeat (apply Forall_cons; split;
            [unfold plain; rewrite !not_elem_of_cons; split_and!;
             try done; first [apply not_elem_of_nil | by apply Nat.ltb_lt] |]).
    apply Forall_nil_2. }
  split_and!; [exact H1 | exact H2 | exact H3 |].
  exact (destroy_padded_phrase ["staging"] [tab] [" "%char; " "%char]
           "" 0 H1 H2 H3).
Defined.

(** X20: a backslash at the end of a line continues the line: for two texts
    of plain characters, which are ASCII, the value is the text before the
    backslash followed by the text of the next line. *)
Theorem read_line_continuation (a b : list ascii) (rest : string) :
  Forall plain a → Forall plain b →
  read (String.string_of_list_ascii a
        +:+ String backslash
              (String newline
                 (String.string_of_list_ascii b +:+ String newline rest)))
  = Some (String.string_of_list_ascii (a ++ b)).
Proof.
  intros Ha Hb.
  rewrite <- (read_plain (a ++ b) rest) by by apply Forall_app.
  unfold read.
  rewrite read_loop_literal by by apply plain_literal.
  cbn [read_loop app].
  rewrite (bool_decide_eq_true_2 (backslash = backslash)) by done.
  rewrite (bool_decide_eq_true_2 (newline = newline)) by done.
  rewrite removelast_last.
  rewrite !read_loop_plain by (done || by apply Forall_app).
  done.
Qed.

Lemma read_line_continuation_witness :
  Forall plain (String.list_ascii_of_string "destroy-")
  ∧ Forall plain (String.list_ascii_of_string "staging")
  ∧ read ("destroy-" +:+ String backslash (String newline "staging")
          +:+ end_of_line)
    = Some "destroy-staging".
Proof.
  assert (H1 : Forall plain (String.list_ascii_of_string "destroy-")).
  { cbn. repeat (apply Forall_cons; split;
            [unfold plain; rewrite !not_elem_of_cons; split_and!;
             try done; first [apply not_elem_of_nil | by apply Nat.ltb_lt] |]).
    apply Forall_nil_2. }
  assert (H2 : Forall plain (String.list_ascii_of_string "staging")).
  { cbn. repeat (apply Forall_cons; split;
            [unfold plain; rewrite !not_elem_of_cons; split_and!;
             try done; first [apply not_elem_of_nil | by apply Nat.ltb_lt] |]).
    apply Forall_nil_2. }
  split_and!; [exact H1 | exact H2 |].
  exact (read_line_continuation _ _ "" H1 H2).
Defined.

End ReadBlanks.

(** ** The deploy script *)

Section Deploy.

Import DestroyScript Sh DeployScript.

(** Splits on whether a command succeeds; where it fails the conditions
    on its status are decided. *)
(** Splits on whether a command succeeds. *)
Ltac outcome status := destruct status as [| ? | ?].

(** The commands the script starts, in order; it stops at the first that
    fails, except for the diff, whose status it does not look at. *)
Lemma deploy_sh_commands (args : list string) (stdin : string)
    (tools : Tools.t) :
  let ok (status : Z) := bool_decide (status = 0) in
  let install_then (then_ : list string) :=
    if Tools.node_modules tools then then_
    else "npm install"
         :: if negb (ok (Tools.npm_install tools)) then [] else then_ in
  commands (deploy_sh args stdin tools)
  = "aws sts get-caller-identity"
    :: if negb (ok (Tools.get_caller_identity tools)) then [] else
    "aws sts get-caller-identity --query Account --output text"
    :: if negb (ok (Tools.account tools).2) then [] else
    "aws configure get region"
    :: install_then
    ("npm run build"
    :: if negb (ok (Tools.npm_run_build tools)) then [] else
    synth_command (ENVIRONMENT args)
    :: if negb (ok (Tools.cdk_synth tools)) then [] else
    diff_command (ENVIRONMENT args)
    :: if decide (read stdin = Some "yes")
       then [deploy_command (ENVIRONMENT args)] else []).
Proof.
  intros ok install_then. subst ok install_then. unfold deploy_sh, script.
  destruct tools as [? ? ? ? identity [account_out account] [region_out region]
                     node_modules install build synth diff deploy ? ?].
  cbn [Tools.get_caller_identity Tools.account Tools.configured_region
       Tools.node_modules Tools.npm_install Tools.npm_run_build
       Tools.cdk_synth Tools.cdk_diff Tools.cdk_deploy fst snd].
  unfold read_prompt.
  outcome identity; [| reflexivity ..].
  outcome account; [| reflexivity ..].
  destruct node_modules; [| outcome install; [| reflexivity ..]].
  all: (outcome build; [| reflexivity ..]).
  all: (outcome synth; [| reflexivity ..]).
  all: (destruct (read stdin) as [CONFIRM |]; [| reflexivity]).
  all: (destruct (decide (CONFIRM = "yes")) as [-> | ?];
    [outcome deploy; reflexivity |]).
  all: rewrite decide_False by congruence.
  all: lazy -[bool_decide synth_command diff_command deploy_command
              ENVIRONMENT command_substitution String.append].
  all: rewrite (bool_decide_true (CONFIRM ≠ "yes")) by done; reflexivity.
Qed.


(** X21: without AWS credentials the deploy script stops after the identity
    check with the error message and status 1; nothing is installed, built
    or deployed. *)
Theorem deploy_requires_credentials (args : list string) (stdin : string)
    (tools : Tools.t) :
  Tools.get_caller_identity tools ≠ 0 →
  deploy_sh args stdin tools
  = {| events :=
         [ echo rule;
           echo "Deploying Readafull Infrastructure";
           echo ("Environment: " +:+ ENVIRONMENT args);
           echo rule;
           run "aws sts get-caller-identity";
           echo "Error: AWS CLI is not configured. Please run 'aws configure' first." ];
       exit_status := 1 |}.
Proof.
  unfold deploy_sh, script. destruct (Tools.get_caller_identity tools); done.
Qed.

Lemma deploy_requires_credentials_witness :
  ∃ tools : Tools.t,
    exit_status (deploy_sh ["production"] ("yes" +:+ end_of_line) tools) = 1.
Proof.
  exists {| Tools.node_installed := true; Tools.aws_installed := true;
            Tools.node_version := ""; Tools.aws_version := "";
            Tools.get_caller_identity := 255;
            Tools.account := ("", 255); Tools.configured_region := ("", 1);
            Tools.node_modules := true; Tools.npm_install := 0;
            Tools.npm_run_build := 0; Tools.cdk_synth := 0;
            Tools.cdk_diff := 0; Tools.cdk_deploy := 0;
            Tools.describe_toolkit_stack := 0; Tools.cdk_bootstrap := 0 |}.
  rewrite deploy_requires_credentials; [reflexivity | simpl; lia].
Defined.

Lemma elem_of_cons_unless {A : Type} (x c : A) (failed : bool) (l : list A) :
  x ≠ c → x ∈ c :: (if failed then [] else l) ↔ failed = false ∧ x ∈ l.
Proof.
  intros ?. rewrite elem_of_cons. destruct failed; rewrite ?elem_of_nil;
    intuition congruence.
Qed.

Lemma elem_of_cons_other {A : Type} (x c : A) (l : list A) :
  x ≠ c → x ∈ c :: l ↔ x ∈ l.
Proof. intros ?. rewrite elem_of_cons. intuition congruence. Qed.

(** X22: the deploy command is started exactly when the identity check
    and the account query succeed, the dependencies are there or get
    installed, build and synth succeed, and [read] assigns [yes]; the
    status of the diff plays no part. *)
Theorem deploy_runs_iff (args : list string) (stdin : string)
    (tools : Tools.t) :
  deploy_command (ENVIRONMENT args) ∈ commands (deploy_sh args stdin tools)
  ↔ Tools.get_caller_identity tools = 0
    ∧ (Tools.account tools).2 = 0
    ∧ (Tools.node_modules tools = false → Tools.npm_install tools = 0)
    ∧ Tools.npm_run_build tools = 0
    ∧ Tools.cdk_synth tools = 0
    ∧ read stdin = Some "yes".
Proof.
  rewrite deploy_sh_commands. cbv zeta.
  assert (different :
    ∀ c, c ∈ [ "aws sts get-caller-identity";
               "aws sts get-caller-identity --query Account --output text";
               "aws configure get region"; "npm install"; "npm run build";
               synth_command (ENVIRONMENT args);
               diff_command (ENVIRONMENT args) ] →
         deploy_command (ENVIRONMENT args) ≠ c).
  { intros c Hc. rewrite !elem_of_cons, elem_of_nil in Hc.
    unfold deploy_command, synth_command, diff_command in *.
    destruct Hc as [-> | [-> | [-> | [-> | [-> | [-> | [-> | []]]]]]]];
      cbv [String.append]; congruence. }
  destruct (Tools.node_modules tools); case_decide;
    repeat first
      [ rewrite elem_of_cons_unless, negb_false_iff, bool_decide_eq_true
          by (apply different; rewrite !elem_of_cons; tauto)
      | rewrite elem_of_cons_other
          by (apply different; rewrite !elem_of_cons; tauto) ];
    rewrite ?elem_of_nil, ?list_elem_of_singleton; intuition congruence.
Qed.

(** X23: the exit status of the deploy script is 1 when the identity
    check fails or the input ends before a line is read, the status of
    the first of the account query, install, build, synth and deploy
    commands that fails, and 0 otherwise: after a deployment that
    succeeds, and when anything but [yes] is read. *)
Theorem deploy_exit_status (args : list string) (stdin : string)
    (tools : Tools.t) :
  exit_status (deploy_sh args stdin tools)
  = if decide (Tools.get_caller_identity tools ≠ 0) then 1
    else if decide ((Tools.account tools).2 ≠ 0) then (Tools.account tools).2
    else if decide (Tools.node_modules tools = false
                    ∧ Tools.npm_install tools ≠ 0)
         then Tools.npm_install tools
    else if decide (Tools.npm_run_build tools ≠ 0)
         then Tools.npm_run_build tools
    else if decide (Tools.cdk_synth tools ≠ 0) then Tools.cdk_synth tools
    else match read stdin with
         | Some CONFIRM =>
             if decide (CONFIRM = "yes") then Tools.cdk_deploy tools else 0
         | None => 1
         end.
Proof.
  unfold deploy_sh, script.
  destruct tools as [? ? ? ? identity [account_out account] [region_out region]
                     node_modules install build synth diff deploy ? ?].
  cbn [Tools.get_caller_identity Tools.account Tools.configured_region
       Tools.node_modules Tools.npm_install Tools.npm_run_build
       Tools.cdk_synth Tools.cdk_diff Tools.cdk_deploy fst snd].
  unfold read_prompt.
  outcome identity; [| reflexivity ..].
  outcome account; [| reflexivity ..].
  destruct node_modules; [| outcome install; [| reflexivity ..]].
  all: (outcome build; [| reflexivity ..]).
  all: (outcome synth; [| reflexivity ..]).
  all: (destruct (read stdin) as [CONFIRM |]; [| reflexivity]).
  all: (destruct (decide (CONFIRM = "yes")) as [-> | ?];
    [outcome deploy; reflexivity |]).
  all: lazy -[bool_decide].
  all: rewrite (bool_decide_true (CONFIRM ≠ "yes")) by done; reflexivity.
Qed.

(** X24: in every run the commands are started in one order, and a run
    starts an initial part of them: the deploy command never comes before
    build, synth and diff, and [npm install] is run only when
    [node_modules] is missing. *)
Theorem deploy_command_order (args : list string) (stdin : string)
    (tools : Tools.t) :
  commands (deploy_sh args stdin tools)
  `prefix_of`
  [ "aws sts get-caller-identity";
    "aws sts get-caller-identity --query Account --output text";
    "aws configure get region" ]
  ++ (if Tools.node_modules tools then [] else ["npm install"])
  ++ [ "npm run build";
       synth_command (ENVIRONMENT args);
       diff_command (ENVIRONMENT args);
       deploy_command (ENVIRONMENT args) ].
Proof.
  rewrite deploy_sh_commands. cbv zeta.
  destruct (Tools.node_modules tools); cbn [app];
    repeat first
      [ apply prefix_nil
      | reflexivity
      | apply prefix_cons
      | match goal with |- context [if ?b then _ else _] => destruct b end ].
Qed.

End Deploy.

(** ** The setup script *)

Section Setup.

Import DestroyScript Sh SetupScript.

Ltac outcome status := destruct status as [| ? | ?].

(** The region the setup script works with. *)
Lemma setup_sh_commands (tools : Tools.t) :
  let ok (status : Z) := bool_decide (status = 0) in
  let ACCOUNT_ID := command_substitution (Tools.account tools).1 in
  let REGION :=
    command_substitution
      ((Tools.configured_region tools).1
         +:+ (if ok (Tools.configured_region tools).2 then ""
              else "us-east-1" +:+ end_of_line)) in
  commands (setup_sh tools)
  = if negb (Tools.node_installed tools) then [] else
    if ok (test_lt (NODE_VERSION (Tools.node_version tools)) 18) then [] else
    if negb (Tools.aws_installed tools) then [] else
    "aws sts get-caller-identity"
    :: if negb (ok (Tools.get_caller_identity tools)) then [] else
    "aws sts get-caller-identity --query Account --output text"
    :: if negb (ok (Tools.account tools).2) then [] else
    "aws configure get region"
    :: "npm install"
    :: if negb (ok (Tools.npm_install tools)) then [] else
    "npm run build"
    :: if negb (ok (Tools.npm_run_build tools)) then [] else
    describe_command REGION
    :: if ok (Tools.describe_toolkit_stack tools) then []
       else [bootstrap_command ACCOUNT_ID REGION].
Proof.
  intros ok ACCOUNT_ID REGION. subst ok ACCOUNT_ID REGION.
  unfold setup_sh, script. cbv zeta.
  generalize (test_lt (NODE_VERSION (Tools.node_version tools)) 18).
  intros version_check.
  destruct tools as [node_installed aws_installed node_version aws_version
                     caller_identity [account_out account] [region_out region]
                     node_modules install build synth diff deploy
                     described bootstrap].
  cbn [Tools.get_caller_identity Tools.account Tools.configured_region
       Tools.node_modules Tools.npm_install Tools.npm_run_build
       Tools.node_installed Tools.aws_installed Tools.node_version
       Tools.aws_version Tools.describe_toolkit_stack Tools.cdk_bootstrap
       fst snd].
  destruct node_installed; [| reflexivity].
  outcome version_check; [reflexivity | ..].
  all: destruct aws_installed; [| reflexivity].
  all: (outcome caller_identity; [| reflexivity ..]).
  all: (outcome account; [| reflexivity ..]).
  all: (outcome install; [| reflexivity ..]).
  all: (outcome build; [| reflexivity ..]).
  all: outcome described; try reflexivity.
  all: outcome bootstrap; try reflexivity.
  all: outcome region; reflexivity.
Qed.

Lemma append_assoc (a b c : string) : (a +:+ b) +:+ c = a +:+ b +:+ c.
Proof.
  induction a as [| x a IH]; [done |].
  change (String x ((a +:+ b) +:+ c) = String x (a +:+ b +:+ c)).
  by rewrite IH.
Qed.

(** *** The pipeline that extracts the major version *)

Lemma lines_line (l line : list ascii) :
  newline ∉ l → lines (l ++ [newline]) line = [line ++ l].
Proof.
  revert line. induction l as [| c l IH]; intros line Hl; simpl.
  - by rewrite ?bool_decide_true, app_nil_r by done.
  - apply not_elem_of_cons in Hl as [? ?].
    rewrite bool_decide_false by done. rewrite IH by done.
    by rewrite <- app_assoc.
Qed.

Lemma fields_app (d : ascii) (l r field : list ascii) :
  d ∉ l → fields d (l ++ r) field = fields d r (field ++ l).
Proof.
  revert field. induction l as [| c l IH]; intros field Hl; simpl.
  - by rewrite app_nil_r.
  - apply not_elem_of_cons in Hl as [? ?].
    rewrite bool_decide_false by done. rewrite IH by done.
    by rewrite <- app_assoc.
Qed.

(** The first field is the text before the first delimiter. *)
Lemma fields_head (d : ascii) (r field : list ascii) :
  ∃ p, head (fields d r field) = Some (field ++ p) ∧ p ⊆ r.
Proof.
  revert field. induction r as [| c r IH]; intros field; simpl.
  - exists []. by rewrite app_nil_r.
  - case_bool_decide.
    + exists []. rewrite app_nil_r. split; [done |]. apply list_subseteq_nil.
    + destruct (IH (field ++ [c])) as (p & -> & ?). exists (c :: p).
      rewrite <- app_assoc. split; [done |].
      intros x [-> | ?]%elem_of_cons;
        [apply list_elem_of_here | apply list_elem_of_further; auto].
Qed.

(** [cut -d v -f 2 | cut -d . -f 1] on a line [v<major>.<rest>] gives
    [<major>]. *)
Lemma cut_major (major rest : list ascii) :
  "v"%char ∉ major → "."%char ∉ major → newline ∉ major → newline ∉ rest →
  cut "." 1 (cut "v" 2 (("v"%char :: major ++ "."%char :: rest) ++ [newline]))
  = major ++ [newline].
Proof.
  intros Hv Hdot Hnl Hrest. unfold cut at 2.
  rewrite lines_line.
  2: { rewrite not_elem_of_cons, elem_of_app, elem_of_cons.
       split; [done |]. intros [? | [? | ?]]; done. }
  cbn [fmap list_fmap concat app]. rewrite app_nil_r.
  unfold cut_line at 1. rewrite bool_decide_true by apply list_elem_of_here.
  cbn [fields pred]. rewrite bool_decide_true by done.
  cbn [lookup list_lookup].
  change (major ++ "."%char :: rest) with (major ++ ["."%char] ++ rest).
  rewrite app_assoc, fields_app.
  2: { rewrite elem_of_app, list_elem_of_singleton. intros [? | ?]; done. }
  destruct (fields_head "v" rest ([] ++ major ++ ["."%char]))
    as (p & Hhead & Hp).
  destruct (fields "v" rest _) as [| first ?]; simplify_eq/=.
  rewrite <- !app_assoc. unfold cut.
  rewrite 2!app_assoc, lines_line.
  2: { rewrite !elem_of_app, list_elem_of_singleton.
       intros [[? | ?] | ?]; try done. apply Hrest, Hp. done. }
  cbn [fmap list_fmap concat app]. rewrite app_nil_r.
  unfold cut_line. rewrite bool_decide_true.
  2: { rewrite !elem_of_app, list_elem_of_singleton. auto. }
  rewrite <- app_assoc, fields_app by done. simpl.
  by rewrite ?bool_decide_true by done.
Qed.

(** A command substitution takes the newline off a line. *)
Lemma command_substitution_line (line : string) :
  newline ∉ String.list_ascii_of_string line → NUL ∉ String.list_ascii_of_string line →
  command_substitution (line +:+ end_of_line) = line.
Proof.
  intros Hnl Hnul. unfold command_substitution.
  rewrite list_ascii_of_append, filter_app.
  assert (∀ l : list ascii, NUL ∉ l → filter (λ c, c ≠ NUL) l = l) as keep.
  { induction l as [| c l IH]; [done |]. intros [? ?]%not_elem_of_cons.
    rewrite filter_cons_True by done. by rewrite IH. }
  rewrite keep by done. cbn [String.list_ascii_of_string end_of_line].
  rewrite filter_cons_True, filter_nil by done.
  rewrite reverse_snoc. cbn [drop_newlines].
  rewrite bool_decide_true by done.
  assert (∀ l : list ascii, newline ∉ l → drop_newlines (reverse l) = reverse l)
    as stays.
  { intros l Hl. destruct (reverse l) as [| c r] eqn:Heq; [done |]. simpl.
    rewrite bool_decide_false; [done |]. intros ->. apply Hl.
    apply elem_of_reverse. rewrite Heq. apply list_elem_of_here. }
  rewrite stays by done. rewrite reverse_involutive.
  apply String.string_of_list_ascii_of_string.
Qed.

(** *** Decimal numerals *)

Lemma digit_pretty_N_char (d : N) :
  (d < 10)%N → digit (pretty_N_char d) = Some (Z.of_N d).
Proof.
  intros ?.
  assert (d ∈ [0; 1; 2; 3; 4; 5; 6; 7; 8; 9]%N) as Hd.
  { rewrite !elem_of_cons. lia. }
  rewrite !elem_of_cons, elem_of_nil in Hd.
  destruct Hd as [-> | [-> | [-> | [-> | [-> | [-> | [-> | [-> | [-> | [->
    | []]]]]]]]]]]; reflexivity.
Qed.

(** The characters [pretty_N_go x s] puts before [s] are digits that denote
    [x]. *)
Lemma pretty_N_go_digits (x : N) (s : string) :
  ∃ pre k,
    String.list_ascii_of_string (pretty_N_go x s) = pre ++ String.list_ascii_of_string s
    ∧ ((0 < x)%N → pre ≠ [])
    ∧ Forall is_digit pre
    ∧ ∀ v r, digits (pre ++ r) v = digits r (v * k + Z.of_N x).
Proof.
  revert s. induction (N.lt_wf_0 x) as [x _ IH]; intros s.
  destruct (decide (x = 0)%N) as [-> | ?].
  { exists [], 1. rewrite pretty_N_go_0. split_and!; [done | lia | done |].
    intros v r. by replace (v * 1 + Z.of_N 0) with v by lia. }
  rewrite pretty_N_go_step by lia.
  destruct (IH (x `div` 10)%N) with
    (s := String (pretty_N_char (x `mod` 10)) s) as (pre & k & Hpre & _ & Hd & Hv).
  { apply N.div_lt; lia. }
  exists (pre ++ [pretty_N_char (x `mod` 10)]), (10 * k).
  assert (x `mod` 10 < 10)%N by (apply N.mod_lt; lia).
  split_and!.
  - rewrite Hpre. by rewrite <- app_assoc.
  - intros _. by destruct pre.
  - apply Forall_app. split; [done |]. apply Forall_singleton.
    unfold is_digit. rewrite digit_pretty_N_char by done. eauto.
  - intros v r. rewrite <- app_assoc, Hv. cbn [app digits].
    rewrite digit_pretty_N_char by done.
    replace (10 * (v * k + Z.of_N (x `div` 10)) + Z.of_N (x `mod` 10))
      with (v * (10 * k) + Z.of_N x); [done |].
    rewrite N2Z.inj_div, N2Z.inj_mod.
    pose proof (Z.div_mod (Z.of_N x) 10). lia.
Qed.

Lemma pretty_N_digits (x : N) :
  ∃ pre k,
    String.list_ascii_of_string (pretty x) = pre ∧ pre ≠ [] ∧ Forall is_digit pre
    ∧ ∀ v r, digits (pre ++ r) v = digits r (v * k + Z.of_N x).
Proof.
  unfold pretty, pretty_N. case_decide as Hx.
  - subst x. exists ["0"%char], 10. split_and!; [done | done | |].
    + apply Forall_singleton. by eexists.
    + intros v r. cbn [app digits].
      change (digit "0") with (Some 0). cbn iota.
      by replace (10 * v + 0) with (v * 10 + Z.of_N 0) by lia.
  - destruct (pretty_N_go_digits x "") as (pre & k & Hpre & Hne & Hd & Hv).
    exists pre, k. rewrite Hpre. simpl. rewrite app_nil_r.
    split_and!; [done | apply Hne; lia | done | done].
Qed.

Lemma is_digit_not (c : ascii) :
  is_digit c →
  c ∉ ["v"; "."; newline; NUL; " "; tab; "-"; "+"; "011"; "012"; "013"]%char.
Proof.
  intros [d Hd] Hc. rewrite !elem_of_cons, elem_of_nil in Hc.
  destruct Hc as [-> | [-> | [-> | [-> | [-> | [-> | [-> | [-> | [-> | [->
    | [-> | []]]]]]]]]]]]; vm_compute in Hd; discriminate.
Qed.

Lemma digits_not (pre : list ascii) (c : ascii) :
  Forall is_digit pre →
  c ∈ ["v"; "."; newline; NUL; " "; tab; "-"; "+"; "011"; "012"; "013"]%char →
  c ∉ pre.
Proof.
  intros Hd Hc Hin. rewrite Forall_forall in Hd.
  by apply (is_digit_not c (Hd c Hin)).
Qed.

(** A decimal numeral is a legal number when it is in range. *)
Lemma legal_number_pretty (x : N) :
  legal_number (pretty x)
  = if bool_decide (Z.of_N x < 2 ^ 63) then Some (Z.of_N x) else None.
Proof.
  destruct (pretty_N_digits x) as (pre & k & Hpre & Hne & Hd & Hv).
  unfold legal_number. rewrite Hpre.
  destruct pre as [| c pre]; [done |].
  apply Forall_cons in Hd as [Hc Hd].
  pose proof (is_digit_not c Hc) as Hnot.
  rewrite !not_elem_of_cons in Hnot.
  destruct Hnot as (_ & _ & ? & _ & ? & ? & ? & ? & ? & ? & ? & _).
  assert (isspace c = false) as Hspace.
  { unfold isspace. apply bool_decide_eq_false.
    rewrite !not_elem_of_cons. split_and?; try done. apply not_elem_of_nil. }
  cbn [skip]. rewrite Hspace.
  match goal with
  | |- (let (negative, s) := ?sign in _) = _ =>
      assert (sign = (false, c :: pre)) as ->
  end.
  { clear - H2 H3. destruct c as [[] [] [] [] [] [] [] []]; done. }
  destruct Hc as [d Hc]. rewrite Hc.
  specialize (Hv 0 []). rewrite app_nil_r in Hv. rewrite Hv.
  cbn [digits skip]. rewrite (bool_decide_true ([] = [])) by done.
  rewrite andb_true_r. replace (0 * k + Z.of_N x) with (Z.of_N x) by lia.
  repeat case_bool_decide; try done; lia.
Qed.

(** [[ <numeral> -lt 18 ]] *)
Lemma test_lt_pretty (x : N) : test_lt (pretty x) 18 = 0 ↔ (x < 18)%N.
Proof.
  unfold test_lt. rewrite legal_number_pretty.
  repeat case_bool_decide; split; try done; lia.
Qed.

(** What [node -v] prints for a release: [v<major>.<rest>] and a newline. *)
Lemma NODE_VERSION_pretty (major : N) (rest : string) :
  newline ∉ String.list_ascii_of_string rest →
  NODE_VERSION ("v" +:+ pretty major +:+ "." +:+ rest +:+ end_of_line)
  = pretty major.
Proof.
  intros Hrest. unfold NODE_VERSION.
  destruct (pretty_N_digits major) as (pre & k & Hpre & _ & Hd & _).
  rewrite !list_ascii_of_append, Hpre.
  change (String.list_ascii_of_string "v") with ["v"%char].
  change (String.list_ascii_of_string ".") with ["."%char].
  change (String.list_ascii_of_string end_of_line) with [newline].
  replace (["v"%char] ++ pre ++ ["."%char]
             ++ String.list_ascii_of_string rest ++ [newline])
    with (("v"%char :: pre ++ "."%char :: String.list_ascii_of_string rest)
            ++ [newline])
    by (simpl; by rewrite <- app_assoc).
  assert (∀ c, c ∈ ["v"; "."; newline; NUL]%char → c ∉ pre) as Hnot.
  { intros c Hc. apply digits_not; [done |].
    rewrite !elem_of_cons, elem_of_nil in Hc. rewrite !elem_of_cons.
    intuition auto. }
  rewrite cut_major; [| apply Hnot; rewrite !elem_of_cons; auto .. | done].
  rewrite <- Hpre. rewrite <- (list_ascii_of_append _ end_of_line).
  rewrite String.string_of_list_ascii_of_string.
  apply command_substitution_line; rewrite Hpre; apply Hnot;
    rewrite !elem_of_cons; auto.
Qed.

(** When the version check fails the script stops there. *)
Lemma setup_sh_old_version (tools : Tools.t) :
  Tools.node_installed tools = true →
  test_lt (NODE_VERSION (Tools.node_version tools)) 18 = 0 →
  setup_sh tools
  = {| events :=
         [ echo rule;
           echo "Setting up Readafull Infrastructure";
           echo rule;
           echo ("Error: Node.js version must be 18 or later. Current version: "
                   +:+ command_substitution (Tools.node_version tools)) ];
       exit_status := 1 |}.
Proof.
  intros Hnode Hold. unfold setup_sh, script. cbv zeta.
  rewrite Hnode, Hold. reflexivity.
Qed.

(** When it passes, the version is reported as the fourth line. *)
Lemma setup_sh_version_ok (tools : Tools.t) :
  Tools.node_installed tools = true →
  test_lt (NODE_VERSION (Tools.node_version tools)) 18 ≠ 0 →
  events (setup_sh tools) !! 3%nat
  = Some (echo ("✓ Node.js version: "
                  +:+ command_substitution (Tools.node_version tools))).
Proof.
  unfold setup_sh, script. cbv zeta.
  generalize (test_lt (NODE_VERSION (Tools.node_version tools)) 18).
  intros version_check.
  destruct tools as [node_installed aws_installed node_version aws_version
                     caller_identity [account_out account] [region_out region]
                     node_modules install build synth diff deploy
                     described bootstrap].
  cbn [Tools.get_caller_identity Tools.account Tools.configured_region
       Tools.node_modules Tools.npm_install Tools.npm_run_build
       Tools.node_installed Tools.aws_installed Tools.node_version
       Tools.aws_version Tools.describe_toolkit_stack Tools.cdk_bootstrap
       fst snd].
  intros -> ?.
  outcome version_check; [done | ..].
  all: destruct aws_installed; [| reflexivity].
  all: (outcome caller_identity; [| reflexivity ..]).
  all: (outcome account; [| reflexivity ..]).
  all: (outcome install; [| reflexivity ..]).
  all: (outcome build; [| reflexivity ..]).
  all: outcome described; try reflexivity.
  all: outcome bootstrap; reflexivity.
Qed.

(** X25: for a Node.js that reports version [v<major>.<rest>], the
    setup script stops with the version error and status 1 exactly when
    [major] is less than 18; otherwise it reports the version and goes
    on. *)
Theorem setup_node_version_check (tools : Tools.t) (major : N)
    (rest : string) :
  Tools.node_installed tools = true →
  Tools.node_version tools
    = "v" +:+ pretty major +:+ "." +:+ rest +:+ end_of_line →
  newline ∉ String.list_ascii_of_string rest →
  NUL ∉ String.list_ascii_of_string rest →
  let version := "v" +:+ pretty major +:+ "." +:+ rest in
  if decide (major < 18)%N
  then setup_sh tools
       = {| events :=
              [ echo rule;
                echo "Setting up Readafull Infrastructure";
                echo rule;
                echo ("Error: Node.js version must be 18 or later. Current version: "
                        +:+ version) ];
            exit_status := 1 |}
  else events (setup_sh tools) !! 3%nat
       = Some (echo ("✓ Node.js version: " +:+ version)).
Proof.
  intros Hnode Hversion Hnl Hnul version.
  assert (command_substitution (Tools.node_version tools) = version) as Hline.
  { rewrite Hversion.
    replace ("v" +:+ pretty major +:+ "." +:+ rest +:+ end_of_line)
      with (version +:+ end_of_line).
    2: { unfold version. by rewrite !append_assoc. }
    destruct (pretty_N_digits major) as (pre & k & Hpre & _ & Hd & _).
    apply command_substitution_line; unfold version;
      rewrite !list_ascii_of_append, Hpre;
      change (String.list_ascii_of_string "v") with ["v"%char];
      change (String.list_ascii_of_string ".") with ["."%char];
      rewrite !elem_of_app, !list_elem_of_singleton;
      (intros [? | [Hin | [? | ?]]]; [done | | done | done]);
      revert Hin; apply digits_not; rewrite ?elem_of_cons; auto. }
  pose proof (test_lt_pretty major) as Hlt.
  rewrite <- (NODE_VERSION_pretty major rest Hnl), <- Hversion in Hlt.
  case_decide.
  - rewrite setup_sh_old_version, Hline by tauto. done.
  - rewrite setup_sh_version_ok, Hline by tauto. done.
Qed.

Lemma setup_node_version_check_witness :
  exit_status
    (setup_sh (Tools.example ("v16.20.2" +:+ end_of_line) ("", 1) 0)) = 1.
Proof.
  pose proof (setup_node_version_check
                (Tools.example ("v16.20.2" +:+ end_of_line) ("", 1) 0)
                16 "20.2") as H.
  rewrite H; [reflexivity | reflexivity | vm_compute; reflexivity | ..];
    apply (bool_decide_unpack _); vm_compute; exact I.
Defined.

(** X26: the setup script bootstraps the CDK exactly when Node.js and
    the AWS CLI are there, the version check does not fail, the identity
    check, the account query, the install and the build succeed, and
    describing the toolkit stack fails. *)
Theorem setup_bootstraps_iff (tools : Tools.t) :
  let ACCOUNT_ID := command_substitution (Tools.account tools).1 in
  let REGION :=
    command_substitution
      ((Tools.configured_region tools).1
         +:+ (if bool_decide ((Tools.configured_region tools).2 = 0) then ""
              else "us-east-1" +:+ end_of_line)) in
  bootstrap_command ACCOUNT_ID REGION ∈ commands (setup_sh tools)
  ↔ Tools.node_installed tools = true
    ∧ test_lt (NODE_VERSION (Tools.node_version tools)) 18 ≠ 0
    ∧ Tools.aws_installed tools = true
    ∧ Tools.get_caller_identity tools = 0
    ∧ (Tools.account tools).2 = 0
    ∧ Tools.npm_install tools = 0
    ∧ Tools.npm_run_build tools = 0
    ∧ Tools.describe_toolkit_stack tools ≠ 0.
Proof.
  intros ACCOUNT_ID REGION. rewrite setup_sh_commands. cbv zeta.
  fold ACCOUNT_ID REGION.
  assert (different :
    ∀ c, c ∈ [ "aws sts get-caller-identity";
               "aws sts get-caller-identity --query Account --output text";
               "aws configure get region"; "npm install"; "npm run build";
               describe_command REGION ] →
         bootstrap_command ACCOUNT_ID REGION ≠ c).
  { intros c Hc. rewrite !elem_of_cons, elem_of_nil in Hc.
    unfold bootstrap_command, describe_command in *.
    destruct Hc as [-> | [-> | [-> | [-> | [-> | [-> | []]]]]]];
      cbv [String.append]; congruence. }
  destruct (Tools.node_installed tools); cbn [negb];
    [| rewrite elem_of_nil; intuition congruence].
  case_bool_decide; [rewrite elem_of_nil; intuition congruence |].
  destruct (Tools.aws_installed tools); cbn [negb];
    [| rewrite elem_of_nil; intuition congruence].
  repeat first
    [ rewrite elem_of_cons_unless, negb_false_iff, bool_decide_eq_true
        by (apply different; rewrite !elem_of_cons; tauto)
    | rewrite elem_of_cons_unless, bool_decide_eq_false
        by (apply different; rewrite !elem_of_cons; tauto)
    | rewrite elem_of_cons_other
        by (apply different; rewrite !elem_of_cons; tauto) ].
  rewrite list_elem_of_singleton. intuition congruence.
Qed.

(** X27: the setup script starts its commands in one order and a run
    starts an initial part of them; the region it checks and bootstraps
    is the configured one, and [us-east-1] when none is configured. *)
Theorem setup_command_order (tools : Tools.t) (REGION : string) :
  (Tools.configured_region tools = (REGION +:+ end_of_line, 0)
   ∧ (newline ∉ String.list_ascii_of_string REGION)
   ∧ (NUL ∉ String.list_ascii_of_string REGION))
  ∨ (∃ status, status ≠ 0
       ∧ Tools.configured_region tools = ("", status)
       ∧ REGION = "us-east-1") →
  commands (setup_sh tools)
  `prefix_of`
  [ "aws sts get-caller-identity";
    "aws sts get-caller-identity --query Account --output text";
    "aws configure get region";
    "npm install";
    "npm run build";
    describe_command REGION;
    bootstrap_command (command_substitution (Tools.account tools).1) REGION ].
Proof.
  intros Hregion. rewrite setup_sh_commands. cbv zeta.
  match goal with
  | |- context [describe_command ?r :: _] => assert (r = REGION) as ->
  end.
  { destruct Hregion as [(-> & ? & ?) | (status & ? & -> & ->)]; cbn [fst snd].
    - rewrite bool_decide_true by done.
      replace (String.append (REGION +:+ end_of_line) "")
        with (REGION +:+ end_of_line).
      + by apply command_substitution_line.
      + rewrite append_assoc. done.
    - by rewrite bool_decide_false by done. }
  repeat first
    [ apply prefix_nil
    | reflexivity
    | apply prefix_cons
    | match goal with |- context [if ?b then _ else _] => destruct b end ].
Qed.

Lemma setup_command_order_witness :
  commands (setup_sh (Tools.example ("v20.11.1" +:+ end_of_line) ("", 1) 254))
  `prefix_of`
  [ "aws sts get-caller-identity";
    "aws sts get-caller-identity --query Account --output text";
    "aws configure get region";
    "npm install";
    "npm run build";
    describe_command "us-east-1";
    bootstrap_command "123456789012" "us-east-1" ].
Proof.
  apply (setup_command_order
           (Tools.example ("v20.11.1" +:+ end_of_line) ("", 1) 254)
           "us-east-1").
  right. exists 1. split; [lia | split; reflexivity].
Defined.

End Setup.
